(** * glossia: the frequency-list builder [get_top_words.py]

    A shallow embedding of the word-frequency pipeline: the POS normaliser,
    the three source adapters (ngram, lemma-frequency, CSV), the ngram
    cross-file merge, and the ranker/formatter of the script's main block.

    Conventions of the embedding.
    - Text is Python [str] restricted to the code points U+0000..U+00FF; a
      character is an [ascii] read as its code point, and the character
      predicates below follow the Unicode data CPython uses on that range.
    - A file is its decoded text after newline translation; iterating it
      yields the lines with their terminating newline.
    - Dictionaries keep insertion order, which decides ties in the final
      sort, so they are association lists updated in place.
    - Sets of POS tags are finite sets of strings.
    - Python [int] is [Z]; Python [float] is IEEE binary64, as [spec_float]
      with precision 53 and maximal exponent 1024. *)

From Stdlib Require Import ZArith NArith Ascii String List Bool Lia Permutation Sorted.
From Stdlib.Floats Require Import SpecFloat.
From stdpp Require Import gmap strings list sorting.

Local Open Scope string_scope.
Local Open Scope bool_scope.

(** ** Characters and strings *)

Module Text.

Definition code (c : ascii) : N := N_of_ascii c.

Definition between (lo hi : N) (c : ascii) : bool :=
  (lo <=? code c)%N && (code c <=? hi)%N.

Definition is_code (n : N) (c : ascii) : bool := (code c =? n)%N.

(** [str.isspace] on one character: TAB..CR, FS..US, space, NEL, NBSP. *)
Definition isspace_chr (c : ascii) : bool :=
  between 9 13 c || between 28 32 c || is_code 133 c || is_code 160 c.

(** Characters with a lowercase mapping: A-Z and the Latin-1 capitals. *)
Definition has_lower (c : ascii) : bool :=
  between 65 90 c || (between 192 222 c && negb (is_code 215 c)).



(** [str.isalpha] on one character: the letter categories. *)
Definition isalpha_chr (c : ascii) : bool :=
  between 65 90 c || between 97 122 c
  || is_code 170 c || is_code 181 c || is_code 186 c
  || (between 192 255 c && negb (is_code 215 c) && negb (is_code 247 c)).

(** Decimal, digit or numeric characters. *)
Definition isnumeric_chr (c : ascii) : bool :=
  between 48 57 c || is_code 178 c || is_code 179 c || is_code 185 c
  || between 188 190 c.

(** The class [\w] of the [re] module on [str] patterns. *)
Definition isword_chr (c : ascii) : bool :=
  isalpha_chr c || isnumeric_chr c || is_code 95 c.

Definition lower_chr (c : ascii) : ascii :=
  if has_lower c then ascii_of_N (code c + 32) else c.

(** [s.lower()] *)
Fixpoint lower (s : string) : string :=
  match s with
  | EmptyString => EmptyString
  | String c s' => String (lower_chr c) (lower s')
  end.

Fixpoint forallb_str (p : ascii -> bool) (s : string) : bool :=
  match s with
  | EmptyString => true
  | String c s' => p c && forallb_str p s'
  end.



(** [s.isalpha()]: non-empty and every character alphabetic. *)
Definition isalpha (s : string) : bool :=
  match s with
  | EmptyString => false
  | _ => forallb_str isalpha_chr s
  end.

(** Truthiness of a string: [if s:]. *)
Definition nonempty (s : string) : bool :=
  match s with EmptyString => false | _ => true end.

Fixpoint lstrip (s : string) : string :=
  match s with
  | EmptyString => EmptyString
  | String c s' => if isspace_chr c then lstrip s' else s
  end.

Fixpoint rstrip (s : string) : string :=
  match s with
  | EmptyString => EmptyString
  | String c s' =>
      match rstrip s' with
      | EmptyString => if isspace_chr c then EmptyString else String c EmptyString
      | r => String c r
      end
  end.

(** [s.strip()] *)
Definition strip (s : string) : string := rstrip (lstrip s).

(** [c in s] for a one-character [c]. *)
Fixpoint has_chr (c : ascii) (s : string) : bool :=
  match s with
  | EmptyString => false
  | String a s' => Ascii.eqb a c || has_chr c s'
  end.

Fixpoint startswith (p s : string) : bool :=
  match p, s with
  | EmptyString, _ => true
  | String a p', String b s' => Ascii.eqb a b && startswith p' s'
  | String _ _, EmptyString => false
  end.

(** [sub in s] *)
Fixpoint contains (sub s : string) : bool :=
  startswith sub s ||
  match s with
  | EmptyString => false
  | String _ s' => contains sub s'
  end.

(** [s.split(sep)] for a one-character separator: never empty, keeps empty
    fields. *)
Fixpoint split (sep : ascii) (s : string) : list string :=
  match s with
  | EmptyString => [EmptyString]
  | String c s' =>
      if Ascii.eqb c sep then EmptyString :: split sep s'
      else match split sep s' with
           | h :: t => String c h :: t
           | [] => [String c EmptyString]
           end
  end.

(** [s.split(sep, 1)] when [sep in s]: the text before the first separator
    and the text after it. *)
Fixpoint split_once (sep : ascii) (s : string) : string * string :=
  match s with
  | EmptyString => (EmptyString, EmptyString)
  | String c s' =>
      if Ascii.eqb c sep then (EmptyString, s')
      else let '(a, b) := split_once sep s' in (String c a, b)
  end.

(** Iterating a text file: each line keeps its newline; a last line without
    one is yielded as it is. *)
Fixpoint readlines (s : string) : list string :=
  match s with
  | EmptyString => []
  | String c s' =>
      if Ascii.eqb c "010"%char then String c EmptyString :: readlines s'
      else match readlines s' with
           | [] => [String c EmptyString]
           | l :: ls => String c l :: ls
           end
  end.

End Text.

(** ** The fragment of [re] used by the script *)

Module Re.

Inductive regex : Type :=
| Eps                      (* the empty pattern *)
| Lit (c : ascii)          (* one literal character; an escaped dot is [Lit "."] *)
| Space                    (* \s *)
| Bound                    (* \b *)
| Cat (r1 r2 : regex)
| Alt (r1 r2 : regex)
| Opt (r : regex)          (* r? *)
| Star (r : regex).        (* r* *)

(** [\b]: exactly one of the neighbouring characters is a word character;
    outside the string counts as a non-word character. *)
Definition at_boundary (prev : option ascii) (s : string) : bool :=
  let w o := match o with Some c => Text.isword_chr c | None => false end in
  xorb (w prev) (w (match s with String c _ => Some c | EmptyString => None end)).

(** [matches r prev s k]: some match of [r] at the head of [s] (whose left
    neighbour is [prev]) leaves a rest accepted by [k]. Only the existence of
    a match is observed by the script, so the order of the alternatives
    tried does not matter. An iteration of [Star] must consume text. *)
Fixpoint matches (r : regex) (prev : option ascii) (s : string)
    (k : option ascii -> string -> bool) {struct r} : bool :=
  match r with
  | Eps => k prev s
  | Lit c =>
      match s with
      | String a s' => Ascii.eqb a c && k (Some a) s'
      | EmptyString => false
      end
  | Space =>
      match s with
      | String a s' => Text.isspace_chr a && k (Some a) s'
      | EmptyString => false
      end
  | Bound => at_boundary prev s && k prev s
  | Cat r1 r2 => matches r1 prev s (fun p' s' => matches r2 p' s' k)
  | Alt r1 r2 => matches r1 prev s k || matches r2 prev s k
  | Opt r1 => matches r1 prev s k || k prev s
  | Star r1 =>
      (fix loop (fuel : nat) (p : option ascii) (t : string) {struct fuel} : bool :=
         k p t ||
         match fuel with
         | O => false
         | S fuel' =>
             matches r1 p t (fun p' t' =>
               (String.length t' <? String.length t)%nat && loop fuel' p' t')
         end) (String.length s) prev s
  end.

(** [re.search(r, s)] as a truth value: a match starts at some position. *)
Fixpoint search_from (r : regex) (prev : option ascii) (s : string) : bool :=
  matches r prev s (fun _ _ => true) ||
  match s with
  | EmptyString => false
  | String c s' => search_from r (Some c) s'
  end.

Definition search (r : regex) (s : string) : bool := search_from r None s.

(** A run of literal characters. *)
Fixpoint text (s : string) : regex :=
  match s with
  | EmptyString => Eps
  | String c s' => Cat (Lit c) (text s')
  end.

(** [\bword\.?\b] *)
Definition abbrev (w : string) : regex :=
  Cat Bound (Cat (text w) (Cat (Opt (Lit ".")) Bound)).

End Re.

(** ** POS normaliser *)

Definition pos_set := gset string.

(** [s.add(x)] *)
Definition add (x : string) (s : pos_set) : pos_set := {[ x ]} ∪ s.

(** [\bv\.?\s*(t\.?|i\.?)?\b] *)
Definition re_verb : Re.regex :=
  Re.Cat Re.Bound
    (Re.Cat (Re.Lit "v")
       (Re.Cat (Re.Opt (Re.Lit "."))
          (Re.Cat (Re.Star Re.Space)
             (Re.Cat
                (Re.Opt (Re.Alt (Re.Cat (Re.Lit "t") (Re.Opt (Re.Lit ".")))
                                (Re.Cat (Re.Lit "i") (Re.Opt (Re.Lit ".")))))
                Re.Bound)))).

(** The eight tests, each on the stripped and lowercased text, with the tag
    it contributes. *)
Definition noun_marker (s : string) : bool :=
  Re.search (Re.abbrev "n") s || Text.contains "noun" s.
Definition verb_marker (s : string) : bool :=
  Re.search re_verb s || Text.contains "verb" s.
Definition adj_marker (s : string) : bool :=
  Re.search (Re.abbrev "a") s || Re.search (Re.abbrev "adj") s
  || Text.contains "adjective" s.
Definition adv_marker (s : string) : bool :=
  Re.search (Re.abbrev "adv") s || Text.contains "adverb" s.
Definition prep_marker (s : string) : bool :=
  Re.search (Re.abbrev "prep") s || Text.contains "preposition" s.
Definition conj_marker (s : string) : bool :=
  Re.search (Re.abbrev "conj") s || Text.contains "conjunction" s.
Definition pron_marker (s : string) : bool :=
  Re.search (Re.abbrev "pron") s || Text.contains "pronoun" s.
Definition det_marker (s : string) : bool :=
  Text.contains "def. art." s || Text.contains "definite article" s
  || Text.contains "det." s.

Definition normalize_pos (pos_str : string) : pos_set :=
  if negb (Text.nonempty pos_str) then ∅ else
  let pos_str := Text.lower (Text.strip pos_str) in
  let pos_tags : pos_set := ∅ in
  let pos_tags := if noun_marker pos_str then add "N" pos_tags else pos_tags in
  let pos_tags := if verb_marker pos_str then add "V" pos_tags else pos_tags in
  let pos_tags := if adj_marker pos_str then add "Adj" pos_tags else pos_tags in
  let pos_tags := if adv_marker pos_str then add "Adv" pos_tags else pos_tags in
  let pos_tags := if prep_marker pos_str then add "Prep" pos_tags else pos_tags in
  let pos_tags := if conj_marker pos_str then add "Conj" pos_tags else pos_tags in
  let pos_tags := if pron_marker pos_str then add "Pron" pos_tags else pos_tags in
  let pos_tags := if det_marker pos_str then add "Det" pos_tags else pos_tags in
  pos_tags.

(** The tests in the order they are made, with the tag each one adds. *)
Definition markers : list ((string → bool) * string) :=
  [(noun_marker, "N"); (verb_marker, "V"); (adj_marker, "Adj");
   (adv_marker, "Adv"); (prep_marker, "Prep"); (conj_marker, "Conj");
   (pron_marker, "Pron"); (det_marker, "Det")].

(** ** Numbers: [int(s)] and [float(s)] *)

Module Num.

Definition isdigit (c : ascii) : bool := Text.between 48 57 c.

Definition digit (c : ascii) : option Z :=
  if isdigit c then Some (Z.of_N (Text.code c) - 48)%Z else None.

(** Digits with single underscores between them; [prev] tells whether the
    character just read was a digit. *)
Fixpoint digits (acc : Z) (prev : bool) (s : string) : option Z :=
  match s with
  | EmptyString => if prev then Some acc else None
  | String c s' =>
      match digit c with
      | Some d => digits (10 * acc + d)%Z true s'
      | None =>
          if Ascii.eqb c "_" && prev then
            match s' with
            | String c' _ => if isdigit c' then digits acc false s' else None
            | EmptyString => None
            end
          else None
      end
  end.

(** The blanks [int] and [float] skip around a number: TAB..CR and the
    space, and NEL and NBSP, which are read as a space. The separators
    FS..US, which [str.strip] removes, are not among them. *)
Definition isblank (c : ascii) : bool :=
  Text.between 9 13 c || Text.is_code 32 c || Text.is_code 133 c || Text.is_code 160 c.

Fixpoint lskip (s : string) : string :=
  match s with
  | EmptyString => EmptyString
  | String c s' => if isblank c then lskip s' else s
  end.

Fixpoint rskip (s : string) : string :=
  match s with
  | EmptyString => EmptyString
  | String c s' =>
      match rskip s' with
      | EmptyString => if isblank c then EmptyString else String c EmptyString
      | r => String c r
      end
  end.

(** The text of a number without the blanks around it. *)
Definition trim (s : string) : string := rskip (lskip s).

(** [int(s)] in base 10; [None] is [ValueError]. The interpreter's limit on
    the number of digits is not modelled. *)
Definition py_int (s : string) : option Z :=
  match trim s with
  | String "+" r => digits 0 false r
  | String "-" r => Z.opp <$> digits 0 false r
  | r => digits 0 false r
  end.

Definition float := spec_float.

Definition prec : Z := 53.
Definition emax : Z := 1024.

(** The binary64 value nearest to [(-1)^neg * m * 10^e], ties to even. *)
Definition of_decimal (neg : bool) (m e : Z) : float :=
  match m with
  | Z0 => S754_zero neg
  | _ =>
      if (0 <=? e)%Z
      then binary_normalize prec emax ((if neg then Z.opp m else m) * 10 ^ e) 0 neg
      else
        let '(q, e', l) := SFdiv_core_binary prec emax m 0 (10 ^ (- e)) 0 in
        binary_round_aux prec emax neg q e' l
  end.

(** Underscores are allowed only between two digits; they are removed
    before the number is read. *)
Fixpoint drop_underscores (prev : option ascii) (s : string) : option string :=
  match s with
  | EmptyString => if match prev with Some c => Ascii.eqb c "_" | None => false end
                   then None else Some EmptyString
  | String c s' =>
      let isdig o := match o with Some a => isdigit a | None => false end in
      if Ascii.eqb c "_" then
        if isdig prev then drop_underscores (Some c) s' else None
      else
        if match prev with Some a => Ascii.eqb a "_" | None => false end
           && negb (isdig (Some c))
        then None
        else String c <$> drop_underscores (Some c) s'
  end.

(** A maximal run of digits: the accumulated value, how many were read, and
    the rest. *)
Fixpoint span_digits (acc : Z) (n : Z) (s : string) : Z * Z * string :=
  match s with
  | EmptyString => (acc, n, EmptyString)
  | String c s' =>
      match digit c with
      | Some d => span_digits (10 * acc + d)%Z (n + 1)%Z s'
      | None => (acc, n, s)
      end
  end.

(** The exponent part after [e] or [E]: sign, digits, end of text. *)
Definition exponent (s : string) : option Z :=
  let go (neg : bool) (r : string) : option Z :=
    let '(v, n, rest) := span_digits 0 0 r in
    if (0 <? n)%Z && negb (Text.nonempty rest)
    then Some (if neg then Z.opp v else v) else None in
  match s with
  | String "+" r => go false r
  | String "-" r => go true r
  | r => go false r
  end.

(** A decimal literal [digits [. digits] [exponent]] or [. digits [exponent]]
    as mantissa and power of ten. *)
Definition decimal (s : string) : option (Z * Z) :=
  let '(ip, ni, r1) := span_digits 0 0 s in
  let '(m, nf, r2) :=
    match r1 with
    | String "." r => span_digits ip 0 r
    | _ => (ip, 0%Z, r1)
    end in
  if (ni + nf =? 0)%Z then None else
  match r2 with
  | EmptyString => Some (m, (- nf)%Z)
  | String c r3 =>
      if Ascii.eqb c "e" || Ascii.eqb c "E"
      then (fun x => (m, (x - nf)%Z)) <$> exponent r3
      else None
  end.

(** [float(s)]; [None] is [ValueError]. *)
Definition py_float (s : string) : option float :=
  let body (neg : bool) (r : string) : option float :=
    let w := Text.lower r in
    if String.eqb w "inf" || String.eqb w "infinity" then Some (S754_infinity neg)
    else if String.eqb w "nan" then Some S754_nan
    else
      r' ← drop_underscores None r;
      '(m, e) ← decimal r';
      Some (of_decimal neg m e) in
  match trim s with
  | String "+" r => body false r
  | String "-" r => body true r
  | r => body false r
  end.

End Num.

(** ** Dictionaries in insertion order *)

Section Dict.
Context {V : Type}.

(** [d.get(k)] / [k in d] *)
Fixpoint get (k : string) (d : list (string * V)) : option V :=
  match d with
  | [] => None
  | (k', v) :: d' => if String.eqb k' k then Some v else get k d'
  end.

(** [d[k] = v]: an existing key keeps its place, a new key goes last. *)
Fixpoint set (k : string) (v : V) (d : list (string * V)) : list (string * V) :=
  match d with
  | [] => [(k, v)]
  | (k', v') :: d' =>
      if String.eqb k' k then (k, v) :: d' else (k', v') :: set k v d'
  end.

(** The entry is created with [v] when the key is missing, as by a
    [defaultdict] or an explicit [if k not in d: d[k] = v]. *)
Definition setdefault (k : string) (v : V) (d : list (string * V)) : list (string * V) :=
  match get k d with
  | Some _ => d
  | None => set k v d
  end.

(** In-place update of the value stored under an existing key. *)
Definition modify (k : string) (f : V -> V) (d : list (string * V)) : list (string * V) :=
  match get k d with
  | Some v => set k (f v) d
  | None => d
  end.
End Dict.

(** The value stored for a word: [{'freq': ..., 'pos': ...}]. *)
Record entry (F : Type) : Type := Entry { freq : F; pos : pos_set }.
Arguments Entry {F} _ _.
Arguments freq {F} _.
Arguments pos {F} _.

Abbreviation dict F := (list (string * entry F)).

(** The word filter shared by the adapters and the ranker:
    [word and len(word) <= 6 and word.isalpha()]. *)
Definition keep_word (word : string) : bool :=
  Text.nonempty word && (String.length word <=? 6)%nat && Text.isalpha word.

(** ** Ngram adapter *)

Definition TAB : ascii := "009"%char.

Definition parse_ngram_line (line : string) : option string * Z * pos_set :=
  match Text.split TAB (Text.strip line) with
  | p0 :: _ :: p2 :: _ =>
      let word := Text.lower p0 in
      let '(word, pos_tags) :=
        if Text.has_chr "_" word
        then let '(word_part, pos_part) := Text.split_once "_" word in
             (word_part, normalize_pos pos_part)
        else (word, ∅) in
      match Num.py_int p2 with
      | Some match_count => (Some word, match_count, pos_tags)
      | None => (None, 0%Z, ∅)
      end
  | _ => (None, 0%Z, ∅)
  end.

(** The body of the loop over the lines of one ngram file. *)
Definition ngram_step (word_data : dict Z) (line : string) : dict Z :=
  let '(word, freq', pos_tags) := parse_ngram_line line in
  match word with
  | Some word =>
      if keep_word word
      then modify word
             (fun e => Entry (freq e + freq')%Z (pos e ∪ pos_tags))
             (setdefault word (Entry 0%Z ∅) word_data)
      else word_data
  | None => word_data
  end.

Definition process_ngram_lines (lines : list string) : dict Z :=
  fold_left ngram_step lines [].

(** The body of the loop that merges one file's result into the total of
    all files. *)
Definition merge_entry (all_word_data : dict Z) (item : string * entry Z) : dict Z :=
  let '(word, data) := item in
  modify word
    (fun e => Entry (freq e + freq data)%Z (pos e ∪ pos data))
    (setdefault word (Entry 0%Z ∅) all_word_data).

Definition merge_file (all_word_data file_data : dict Z) : dict Z :=
  fold_left merge_entry file_data all_word_data.

(** ** Lemma-frequency adapter *)

Fixpoint first_float (parts : list string) : option Num.float :=
  match parts with
  | [] => None
  | part :: rest =>
      match Num.py_float (Text.strip part) with
      | Some f => Some f
      | None => first_float rest
      end
  end.

(** One round of the loop over the candidate separators; [None] means the
    loop goes on to the next separator. *)
Definition parse_with_sep (sep : ascii) (line : string)
    : option (string * Num.float * pos_set) :=
  if Text.has_chr sep line then
    match Text.split sep (Text.strip line) with
    | p0 :: p1 :: p2 :: (_ :: _) as rest =>
        match Num.py_int p0 with
        | None => None
        | Some rank =>
            let word := Text.lower (Text.strip p1) in
            let pos_str := Text.strip p2 in
            let '(word, pos_str) :=
              if Text.has_chr "_" word
              then let '(word_part, pos_part) := Text.split_once "_" word in
                   (word_part, if Text.nonempty pos_str then pos_str else pos_part)
              else (word, pos_str) in
            match first_float rest with
            | Some freq' =>
                if Text.nonempty word
                then Some (word, freq', normalize_pos pos_str)
                else None
            | None => None
            end
        end
    | _ => None
    end
  else None.

Fixpoint parse_with_seps (seps : list ascii) (line : string)
    : option string * option Num.float * pos_set :=
  match seps with
  | [] => (None, None, ∅)
  | sep :: seps' =>
      match parse_with_sep sep line with
      | Some (word, freq', pos_tags) => (Some word, Some freq', pos_tags)
      | None => parse_with_seps seps' line
      end
  end.

Definition parse_wordfrequency_line (line : string)
    : option string * option Num.float * pos_set :=
  parse_with_seps [TAB; "|"%char; ","%char] line.

(** [freq > old] on floats. *)
Definition fgt (a b : Num.float) : bool := SFltb b a.

(** What the lemma-frequency loop does with a line that is not skipped. *)
Definition wordfreq_data_line (word_data : dict Num.float) (line : string)
    : dict Num.float :=
  match parse_wordfrequency_line line with
  | (Some word, Some freq', pos_tags) =>
      if keep_word word then
        match get word word_data with
        | None => set word (Entry freq' pos_tags) word_data
        | Some e =>
            set word
              (Entry (if fgt freq' (freq e) then freq' else freq e)
                     (pos e ∪ pos_tags))
              word_data
        end
      else word_data
  | _ => word_data
  end.

(** The loop body; the state is [header_skipped] and the dictionary, the
    item is a pair of [enumerate]. *)
Definition wordfreq_step (st : bool * dict Num.float) (item : nat * string)
    : bool * dict Num.float :=
  let '(header_skipped, word_data) := st in
  let '(line_num, line) := item in
  if negb header_skipped
     && (Text.contains "rank" (Text.lower line)
         || Text.contains "lemma" (Text.lower line)
         || (line_num <? 2)%nat)
  then (true, word_data)
  else (header_skipped, wordfreq_data_line word_data line).

Definition enumerate {A : Type} (l : list A) : list (nat * A) :=
  combine (seq 0 (length l)) l.

Definition wordfreq_lines (lines : list string) : dict Num.float :=
  snd (fold_left wordfreq_step (enumerate lines) (false, [])).

(** ** CSV adapter *)

Definition csv_data_line (word_data : dict Num.float) (line : string)
    : dict Num.float :=
  match Text.split "," (Text.strip line) with
  | p0 :: p1 :: _ =>
      let word := Text.lower (Text.strip p0) in
      match Num.py_float (Text.strip p1) with
      | Some freq' =>
          if keep_word word then
            match get word word_data with
            | None => set word (Entry freq' ∅) word_data
            | Some e =>
                if fgt freq' (freq e)
                then set word (Entry freq' (pos e)) word_data
                else word_data
            end
          else word_data
      | None => word_data
      end
  | _ => word_data
  end.

Definition csv_step (st : bool * dict Num.float) (line : string)
    : bool * dict Num.float :=
  let '(header_skipped, word_data) := st in
  if negb header_skipped
     && (Text.contains "word" (Text.lower line)
         || Text.contains "freq" (Text.lower line))
  then (true, word_data)
  else (header_skipped, csv_data_line word_data line).

Definition csv_lines (lines : list string) : dict Num.float :=
  snd (fold_left csv_step lines (false, [])).

(** ** Ranker and formatter *)

(** The [<] of the values that are sorted. *)
Class Less (A : Type) : Type := less : A -> A -> bool.

#[global] Instance less_int : Less Z := Z.ltb.
#[global] Instance less_float : Less Num.float := SFltb.
#[global] Instance less_str : Less string := String.ltb.

Section Sorting.
Context {A K : Type} `{Less K}.
Variable key : A -> K.

(** [x] goes in front of the first element that is not smaller than it, so
    it stays ahead of the equal elements that came after it. *)
Fixpoint insert_sorted (x : A) (l : list A) : list A :=
  match l with
  | [] => [x]
  | y :: l' => if less (key y) (key x) then y :: insert_sorted x l' else x :: l
  end.

Definition sort_ascending (l : list A) : list A :=
  foldr insert_sorted [] l.

(** [sorted(l, key=key, reverse=reverse)]. The sort is stable and uses only
    [<]; a reversed sort reverses the list, sorts it and reverses the
    result. On keys that [<] orders totally this is the list [sorted]
    returns; the run and merge schedule of the interpreter's sort, which
    decides the result on keys that do not compare (a NaN), is not
    modelled. *)
Definition sorted (reverse : bool) (l : list A) : list A :=
  if reverse then rev (sort_ascending (rev l)) else sort_ascending l.
End Sorting.

(** [l[:n]] *)
Definition slice_to {A : Type} (n : Z) (l : list A) : list A :=
  if (0 <=? n)%Z then firstn (Z.to_nat n) l
  else firstn (Z.to_nat (Z.of_nat (length l) + n)) l.

(** [sep.join(l)] *)
Fixpoint join (sep : string) (l : list string) : string :=
  match l with
  | [] => EmptyString
  | [x] => x
  | x :: l' => x ++ sep ++ join sep l'
  end.

Definition NL : string := String "010"%char EmptyString.

Section Rank.
Context {F : Type} `{Less F}.

(** [{w: d for w, d in word_data.items() if len(w) <= 6 and w.isalpha()}] *)
Definition filtered (word_data : dict F) : dict F :=
  List.filter (fun item => (String.length (fst item) <=? 6)%nat && Text.isalpha (fst item))
    word_data.

Definition sorted_words (top_n : Z) (word_data : dict F) : dict F :=
  slice_to top_n (sorted (fun item => freq (snd item)) true (filtered word_data)).

(** The text written for one ranked word. *)
Definition format_line (item : string * entry F) : string :=
  let '(word, data) := item in
  let pos_tags := sorted (fun t : string => t) false (elements (pos data)) in
  match pos_tags with
  | [] => word ++ NL
  | _ => word ++ "|" ++ join "," pos_tags ++ NL
  end.
End Rank.

(** ** The main block *)

Record args : Type := Args {
  top_n : Z;
  output : option string;
  ngram : option (list string);
  csv : option string;
  wordfreq : option string;
  download_coca : bool
}.

(** What a run reads: the text of each file that can be opened ([None] for
    a path that is missing or unreadable) and the text fetched from the
    network ([None] when the download fails). *)
Record env : Type := Env {
  fs : string -> option string;
  fetched : option string
}.

(** [os.path.exists] *)
Definition path_exists (e : env) (path : string) : bool :=
  bool_decide (is_Some (fs e path)).

Definition process_ngram_file (e : env) (file_path : string) : dict Z :=
  match fs e file_path with
  | Some text => process_ngram_lines (Text.readlines text)
  | None => []
  end.

Definition get_top_words_from_wordfrequency (e : env) (file_path : string)
    : dict Num.float :=
  match fs e file_path with
  | Some text => wordfreq_lines (Text.readlines text)
  | None => []
  end.

Definition get_top_words_from_csv (e : env) (csv_file : string) : dict Num.float :=
  match fs e csv_file with
  | Some text => csv_lines (Text.readlines text)
  | None => []
  end.

(** The loop over [args.ngram]. *)
Definition ngram_files_step (e : env) (all_word_data : dict Z) (ngram_file : string)
    : dict Z :=
  if negb (path_exists e ngram_file) then all_word_data
  else merge_file all_word_data (process_ngram_file e ngram_file).

Definition merge_ngram_files (e : env) (files : list string) : dict Z :=
  fold_left (ngram_files_step e) files [].

(** The aggregate of a run: integer totals from ngram files, float
    frequencies from the other sources. *)
Inductive table : Type :=
| Counts (word_data : dict Z)
| Scores (word_data : dict Num.float).

Definition table_words (t : table) : list string :=
  match t with
  | Counts d => map fst d
  | Scores d => map fst d
  end.

(** Truthiness of an optional, possibly empty argument. *)
Definition given_list (o : option (list string)) : option (list string) :=
  match o with
  | Some (_ :: _) => o
  | _ => None
  end.

Definition given (o : option string) : option string :=
  match o with
  | Some (String _ _) => o
  | _ => None
  end.

(** The source selection: [None] is an exit with status 1 taken inside the
    selected branch. *)
Definition gather (a : args) (e : env) : option table :=
  match given_list (ngram a) with
  | Some files =>
      match merge_ngram_files e files with
      | [] => None
      | word_data => Some (Counts word_data)
      end
  | None =>
      if download_coca a then
        match fetched e with
        | Some text => Some (Scores (wordfreq_lines (Text.readlines text)))
        | None => None
        end
      else
        match given (wordfreq a) with
        | Some path => Some (Scores (get_top_words_from_wordfrequency e path))
        | None =>
            match given (csv a) with
            | Some path => Some (Scores (get_top_words_from_csv e path))
            | None => None
            end
        end
  end.

(** The ranked entries behind the output lines. *)
Definition ranked (a : args) (t : table) : table :=
  match t with
  | Counts d => Counts (sorted_words (top_n a) d)
  | Scores d => Scores (sorted_words (top_n a) d)
  end.

Definition table_lines (t : table) : list string :=
  match t with
  | Counts d => map format_line d
  | Scores d => map format_line d
  end.

(** How a run ends: [Exit1] is [sys.exit(1)], before the output target is
    opened; [Wrote dest lines] is a run that wrote [lines] to the file
    [dest] or, for [None], to the standard output. The messages on the
    standard error and the usage text that [print_help] writes before the
    exit of a run without a source are not part of the outcome. *)
Inductive outcome : Type :=
| Exit1
| Wrote (dest : option string) (lines : list string).

Definition main (a : args) (e : env) : outcome :=
  match gather a e with
  | None => Exit1
  | Some word_data =>
      match table_words word_data with
      | [] => Exit1
      | _ =>
          (* open(args.output, 'w') if args.output else sys.stdout *)
          Wrote (given (output a)) (table_lines (ranked a word_data))
      end
  end.

(** ** Vocabulary of the statements *)

(** The fixed tag vocabulary. *)
Definition vocabulary : pos_set :=
  {[ "N"; "V"; "Adj"; "Adv"; "Prep"; "Conj"; "Pron"; "Det" ]}.

Definition run_markers (s : string) (ms : list ((string → bool) * string))
    (acc : pos_set) : pos_set :=
  fold_left
    (fun (pos_tags : pos_set) (m : (string → bool) * string) =>
       if fst m s then add (snd m) pos_tags else pos_tags)
    ms acc.

Module FloatOrder.

(** A float other than NaN as a point of [Z * Z * Z], ordered
    lexicographically the way [SFcompare] orders the floats. *)
Definition point (f : Num.float) : Z * Z * Z :=
  match f with
  | S754_infinity true => (-2, 0, 0)
  | S754_finite true m e => (-1, - e, Zneg m)
  | S754_zero _ | S754_nan => (0, 0, 0)
  | S754_finite false m e => (1, e, Zpos m)
  | S754_infinity false => (2, 0, 0)
  end%Z.

Definition lex (p q : Z * Z * Z) : comparison :=
  let '(a, b, c) := p in
  let '(a', b', c') := q in
  match (a ?= a')%Z with
  | Eq => match (b ?= b')%Z with Eq => (c ?= c')%Z | o => o end
  | o => o
  end.

Definition lex_le (p q : Z * Z * Z) : Prop :=
  let '(a, b, c) := p in
  let '(a', b', c') := q in
  (a < a' ∨ (a = a' ∧ (b < b' ∨ (b = b' ∧ c ≤ c'))))%Z.

End FloatOrder.

(** The entries of a ranked table list the frequencies from the largest to
    the smallest: every entry is at least every later one. *)
Definition descending (t : table) : Prop :=
  match t with
  | Counts d =>
      StronglySorted (fun x y => (freq (snd y) ≤ freq (snd x))%Z) d
  | Scores d =>
      StronglySorted (fun x y => SFleb (freq (snd y)) (freq (snd x)) = true) d
  end.

(** No frequency of the table is a NaN. *)
Definition no_nan (t : table) : Prop :=
  match t with
  | Counts _ => True
  | Scores d => Forall (fun x => freq (snd x) ≠ S754_nan) d
  end.

(** The successive states of a loop [for x in xs: s = step(s, x)], the
    initial state first. *)
Fixpoint trace {S X : Type} (step : S → X → S) (s : S) (xs : list X) : list S :=
  s :: match xs with
       | [] => []
       | x :: xs' => trace step (step s x) xs'
       end.

(** What an ngram line contributes to the bare word [w]: its match count
    and POS tags, when the line parses to [w] and [w] passes the filter. *)
Definition ngram_hit (w line : string) : option (Z * pos_set) :=
  match parse_ngram_line line with
  | (Some w', c, p) => if keep_word w' && String.eqb w' w then Some (c, p) else None
  | _ => None
  end.

(** The sum of the counts and the union of the tag sets of a non-empty list
    of contributions. *)
Definition total (hits : list (Z * pos_set)) : option (entry Z) :=
  match hits with
  | [] => None
  | _ => Some (Entry (foldr Z.add 0%Z (map fst hits)) (⋃ (map snd hits)))
  end.

(** What an ngram file given on the command line contributes to [w]: the
    total the file's own pass recorded, when the file exists. *)
Definition file_hit (e : env) (w file : string) : option (Z * pos_set) :=
  if path_exists e file
  then (fun d => (freq d, pos d)) <$> get w (process_ngram_file e file)
  else None.

(** The header test of the CSV loop. *)
Definition csv_header (line : string) : bool :=
  Text.contains "word" (Text.lower line) || Text.contains "freq" (Text.lower line).

(** The larger of the recorded and the new frequency, as the adapters
    decide it: the new one only when it is greater. *)
Definition fmax (old new : Num.float) : Num.float :=
  if fgt new old then new else old.

(** What a lemma-frequency data line contributes to [w]. *)
Definition wordfreq_hit (w line : string) : option (Num.float * pos_set) :=
  match parse_wordfrequency_line line with
  | (Some w', Some f, p) =>
      if keep_word w' && String.eqb w' w then Some (f, p) else None
  | _ => None
  end.

(** What a CSV data line contributes to [w]. *)
Definition csv_hit (w line : string) : option Num.float :=
  match Text.split "," (Text.strip line) with
  | p0 :: p1 :: _ =>
      match Num.py_float (Text.strip p1) with
      | Some f =>
          let word := Text.lower (Text.strip p0) in
          if keep_word word && String.eqb word w then Some f else None
      | None => None
      end
  | _ => None
  end.

(** The entry left by a list of contributions under the keep-the-larger
    policy: the first frequency, replaced in turn by every later one that is
    greater, and the union of the tag sets. *)
Definition best (hits : list (Num.float * pos_set)) : option (entry Num.float) :=
  match hits with
  | [] => None
  | (f, p) :: rest =>
      Some (Entry (fold_left fmax (map fst rest) f) (p ∪ ⋃ (map snd rest)))
  end.

Definition best_csv (hits : list Num.float) : option (entry Num.float) :=
  match hits with
  | [] => None
  | f :: rest => Some (Entry (fold_left fmax rest f) ∅)
  end.

(** Every word recorded in [d] is still recorded in [d'], with a frequency
    that [le] relates to the old one. *)
Definition grows {F : Type} (le : F → F → Prop) (d d' : dict F) : Prop :=
  ∀ w e, get w d = Some e → ∃ e', get w d' = Some e' ∧ le (freq e) (freq e').

Definition all_freqs {F : Type} (P : F → Prop) (d : dict F) : Prop :=
  Forall (fun x => P (freq (snd x))) d.

(** The match count read from an ngram line (0 when the line is dropped). *)
Definition ngram_count (line : string) : Z := snd (fst (parse_ngram_line line)).

Definition nonneg_float (f : Num.float) : Prop := SFleb (S754_zero false) f = true.

(** The new frequency is not smaller than the old one. *)
Definition not_less (old new : Num.float) : Prop := SFltb new old = false.

(** The frequency read from a lemma-frequency line, if any, is not
    negative. *)
Definition wordfreq_freq_ok (line : string) : Prop :=
  match parse_wordfrequency_line line with
  | (_, Some f, _) => nonneg_float f
  | _ => True
  end.

(** The frequency field of a CSV line. *)
Definition csv_freq (line : string) : option Num.float :=
  match Text.split "," (Text.strip line) with
  | _ :: p1 :: _ => Num.py_float (Text.strip p1)
  | _ => None
  end.

Definition csv_freq_ok (line : string) : Prop :=
  match csv_freq line with
  | Some f => nonneg_float f
  | None => True
  end.

(** Every match count read from the ngram file [file], if it can be read,
    is not negative. *)
Definition nonneg_file (e : env) (file : string) : Prop :=
  ∀ text, fs e file = Some text →
          Forall (fun line => (0 ≤ ngram_count line)%Z) (Text.readlines text).

(** A word as the adapters record it: it passes the filter and is its own
    lowercase form. *)
Definition good_word (w : string) : Prop :=
  keep_word w = true ∧ Text.lower w = w.

Definition good_keys {F : Type} (d : dict F) : Prop :=
  Forall (fun x => good_word (fst x)) d.

Definition table_good (t : table) : Prop :=
  match t with
  | Counts d => good_keys d
  | Scores d => good_keys d
  end.

(** The words of the aggregate that pass the ranker's filter. *)
Definition survivors (t : table) : list string :=
  match t with
  | Counts d => map fst (filtered d)
  | Scores d => map fst (filtered d)
  end.

(** Both ngram loops create a missing entry at zero and add to it. *)
Definition bump (w : string) (c : Z) (p : pos_set) (d : dict Z) : dict Z :=
  modify w (fun e => Entry (freq e + c)%Z (pos e ∪ p)) (setdefault w (Entry 0%Z ∅) d).

Definition bump_value (o : option (entry Z)) (hit : Z * pos_set) : option (entry Z) :=
  let e := default (Entry 0%Z ∅) o in
  Some (Entry (freq e + fst hit)%Z (pos e ∪ snd hit)).

(** A run that reads the single file [path] holding [text]. *)
Definition one_file (path text : string) : env :=
  Env (fun p => if String.eqb p path then Some text else None) None.

(** A run that reads two files holding the same [text]. *)
Definition two_files (path1 path2 text : string) : env :=
  Env (fun p => if String.eqb p path1 || String.eqb p path2 then Some text else None)
      None.

(** [kept] is a part of [all] whose entries have a frequency at least that
    of every entry of the remaining part. *)
Definition keeps_largest {F : Type} (le : F → F → Prop) (kept all : dict F) : Prop :=
  ∃ rest, Permutation all (kept ++ rest)%list
          ∧ ∀ x y, In x kept → In y rest → le (freq (snd y)) (freq (snd x)).

Definition ranked_largest (a : args) (t : table) : Prop :=
  match t with
  | Counts d => keeps_largest Z.le (sorted_words (top_n a) d) d
  | Scores d =>
      keeps_largest (fun x y => SFleb x y = true) (sorted_words (top_n a) d) d
  end.

(** The number of entries the slice [[:top_n]] keeps of [len] entries. *)
Definition slice_count (top_n len : Z) : Z :=
  if (0 <=? top_n)%Z then Z.min top_n len else Z.max 0 (len + top_n).




(** Every tag of the set belongs to the fixed vocabulary. *)
Definition in_vocabulary (s : pos_set) : Prop := s ⊆ vocabulary.

Definition all_pos {F : Type} (P : pos_set → Prop) (d : dict F) : Prop :=
  Forall (fun x => P (pos (snd x))) d.

Definition table_pos (P : pos_set → Prop) (t : table) : Prop :=
  match t with
  | Counts d => all_pos P d
  | Scores d => all_pos P d
  end.

Definition table_keys_distinct (t : table) : Prop :=
  List.NoDup (table_words t).

(** The text that follows the word on an output line: the end of the line,
    or a bar and the comma-separated tags. *)
Definition tags_suffix (tags : list string) : string :=
  match tags with
  | [] => NL
  | _ => "|" ++ join "," tags ++ NL
  end.

(** [\bword\b]: the abbreviation pattern without its optional dot. *)
Definition whole_word (w : string) : Re.regex :=
  Re.Cat Re.Bound (Re.Cat (Re.text w) Re.Bound).

(** The last character of a string. *)
Fixpoint last_chr (s : string) : option ascii :=
  match s with
  | EmptyString => None
  | String c EmptyString => Some c
  | String _ s' => last_chr s'
  end.

(** The word an ngram line is recorded under, if it is recorded. *)
Definition ngram_key (line : string) : option string :=
  match parse_ngram_line line with
  | (Some w, _, _) => if keep_word w then Some w else None
  | _ => None
  end.

(** The word a lemma-frequency data line is recorded under. *)
Definition wordfreq_key (line : string) : option string :=
  match parse_wordfrequency_line line with
  | (Some w, Some _, _) => if keep_word w then Some w else None
  | _ => None
  end.

(** The word a CSV data line is recorded under. *)
Definition csv_key (line : string) : option string :=
  match Text.split "," (Text.strip line) with
  | p0 :: p1 :: _ =>
      match Num.py_float (Text.strip p1) with
      | Some _ =>
          let word := Text.lower (Text.strip p0) in
          if keep_word word then Some word else None
      | None => None
      end
  | _ => None
  end.

(** [r] is the larger of [a] and [b]: one of the two, and at least both. *)
Definition larger_of (a b r : Num.float) : Prop :=
  (r = a ∨ r = b) ∧ SFleb a r = true ∧ SFleb b r = true.



(** The lines of a CSV file that are parsed as data: all but the first line
    that holds a keyword. *)
Fixpoint csv_data_lines (lines : list string) : list string :=
  match lines with
  | [] => []
  | l :: ls => if csv_header l then ls else l :: csv_data_lines ls
  end.

(** The words of a list in the order of their first occurrence. *)
Definition first_seen (seen : list string) (words : list string) : list string :=
  fold_left (fun acc w => if bool_decide (w ∈ acc) then acc else (acc ++ [w])%list)
    words seen.

(** * Properties *)

(** ** Text *)

Lemma lower_chr_idem (c : ascii) : Text.lower_chr (Text.lower_chr c) = Text.lower_chr c.
Proof. destruct c as [[] [] [] [] [] [] [] []]; reflexivity. Qed.

Lemma lower_idem (s : string) : Text.lower (Text.lower s) = Text.lower s.
Proof. induction s as [|c s IH]; simpl; [reflexivity|]. by rewrite lower_chr_idem, IH. Qed.

Lemma split_once_lower (sep : ascii) (s : string) :
  Text.lower s = s →
  Text.lower (fst (Text.split_once sep s)) = fst (Text.split_once sep s).
Proof.
  induction s as [|c s IH]; simpl; [done|].
  intros Heq. injection Heq as Hc Hs.
  destruct (Ascii.eqb c sep); [done|].
  destruct (Text.split_once sep s) as [a b]; simpl in *.
  by rewrite Hc, IH.
Qed.

Lemma lower_chr_fixed (c : ascii) :
  Text.lower_chr c = c → Text.has_lower c = false.
Proof.
  destruct c as [[] [] [] [] [] [] [] []]; vm_compute; intros Hc;
    (reflexivity || discriminate Hc).
Qed.

(** A text that [lower] leaves as it is holds no character with a lowercase
    form. *)
Lemma lower_fixed_no_capital (s : string) :
  Text.lower s = s → Text.forallb_str (fun c => negb (Text.has_lower c)) s = true.
Proof.
  induction s as [|c s IH]; simpl; [done|].
  intros [= Hc Hs]. by rewrite (lower_chr_fixed c Hc), IH.
Qed.



Lemma keep_word_spec (w : string) :
  keep_word w = true →
  (String.length w ≤ 6)%nat ∧ Text.isalpha w = true.
Proof.
  unfold keep_word. intros H.
  apply andb_prop in H as [H Ha]. apply andb_prop in H as [_ Hl].
  split; [by apply Nat.leb_le|done].
Qed.

(** ** Dictionaries *)

Section DictFacts.
Context {V : Type}.
Implicit Types (d : list (string * V)) (k : string) (v : V).

Lemma get_set_eq k v d : get k (set k v d) = Some v.
Proof.
  induction d as [|[k' v'] d IH]; simpl.
  - by rewrite String.eqb_refl.
  - destruct (String.eqb k' k) eqn:E; simpl.
    + by rewrite String.eqb_refl.
    + by rewrite E.
Qed.

Lemma get_set_ne k k' v d : k ≠ k' → get k' (set k v d) = get k' d.
Proof.
  intros Hne. induction d as [|[k0 v0] d IH]; simpl.
  - destruct (String.eqb k k') eqn:E; [|done].
    by apply String.eqb_eq in E.
  - destruct (String.eqb k0 k) eqn:E; simpl.
    + apply String.eqb_eq in E as ->.
      destruct (String.eqb k k') eqn:E'; [|done].
      by apply String.eqb_eq in E'.
    + by rewrite IH.
Qed.

Lemma get_set k k' v d :
  get k' (set k v d) = if decide (k = k') then Some v else get k' d.
Proof.
  case_decide as E; [subst; apply get_set_eq | by apply get_set_ne].
Qed.

(** Creating the entry when missing and then updating it in place stores
    the update of the old value, or of the default. *)
Lemma modify_setdefault k v0 (f : V → V) d :
  modify k f (setdefault k v0 d) = set k (f (default v0 (get k d))) d.
Proof.
  unfold modify, setdefault.
  destruct (get k d) as [v|] eqn:E; simpl.
  - by rewrite E.
  - rewrite get_set_eq.
    clear E. induction d as [|[k' v'] d IH]; simpl.
    + by rewrite String.eqb_refl.
    + destruct (String.eqb k' k) eqn:E; simpl.
      * by rewrite String.eqb_refl.
      * by rewrite E, IH.
Qed.

Lemma get_Some_In k v d : get k d = Some v → In (k, v) d.
Proof.
  induction d as [|[k' v'] d IH]; simpl; [done|].
  destruct (String.eqb k' k) eqn:E.
  - apply String.eqb_eq in E as ->. intros [= ->]. by left.
  - intros. right. by apply IH.
Qed.

Lemma In_get k v d : In (k, v) d → is_Some (get k d).
Proof.
  induction d as [|[k' v'] d IH]; simpl; [done|].
  intros [[= -> ->]|Hin].
  - by rewrite String.eqb_refl.
  - destruct (String.eqb k' k); [done|by apply IH].
Qed.

(** The keys after a store are the old keys and the stored key. *)
Lemma In_set_key k v d k' v' :
  In (k', v') (set k v d) → k' = k ∨ In k' (map fst d).
Proof.
  induction d as [|[k0 v0] d IH]; simpl.
  - intros [[= <- <-]|[]]. by left.
  - destruct (String.eqb k0 k) eqn:E; simpl.
    + intros [[= <- <-]|Hin]; [by left|].
      right. right. apply in_map_iff. by exists (k', v').
    + intros [[= <- <-]|Hin]; [right; by left|].
      destruct (IH Hin) as [->|?]; [by left|right; by right].
Qed.
Lemma get_None_keys k d : get k d = None ↔ ¬ In k (map fst d).
Proof.
  induction d as [|[k' v'] d IH]; simpl; [tauto|].
  destruct (String.eqb k' k) eqn:E.
  - apply String.eqb_eq in E. split; [done|]. intros Hn. destruct Hn. by left.
  - apply String.eqb_neq in E. rewrite IH. tauto.
Qed.

Lemma keys_set k v d :
  map fst (set k v d) =
  match get k d with
  | Some _ => map fst d
  | None => (map fst d ++ [k])%list
  end.
Proof.
  induction d as [|[k' v'] d IH]; simpl; [done|].
  destruct (String.eqb k' k) eqn:E; simpl.
  - by apply String.eqb_eq in E as ->.
  - rewrite IH. by destruct (get k d).
Qed.

Lemma NoDup_keys_set k v d :
  List.NoDup (map fst d) → List.NoDup (map fst (set k v d)).
Proof.
  intros Hd. rewrite keys_set. destruct (get k d) eqn:E; [done|].
  apply get_None_keys in E. apply NoDup_ListNoDup, NoDup_app.
  apply NoDup_ListNoDup in Hd. split; [done|]. split; [|apply NoDup_singleton].
  intros x Hx ->%list_elem_of_singleton. by apply E, list_elem_of_In.
Qed.

(** In a dictionary the items stored under a key are the one [get] finds. *)
Lemma items_of_key {B : Type} (f : V → B) k d :
  List.NoDup (map fst d) →
  omap (fun item : string * V =>
          if decide (fst item = k) then Some (f (snd item)) else None) d
  = match get k d with Some v => [f v] | None => [] end.
Proof.
  induction d as [|[k' v'] d IH]; simpl; [done|].
  intros Hd. apply List.NoDup_cons_iff in Hd as [Hk Hd].
  case_decide as E.
  - subst. rewrite String.eqb_refl. f_equal.
    etrans; [apply (IH Hd)|]. apply get_None_keys in Hk. by rewrite Hk.
  - apply String.eqb_neq in E. rewrite E. by apply IH.
Qed.

End DictFacts.

(** ** Sorting and slicing *)

Section SortFacts.
Context {A K : Type} `{Less K}.
Variable key : A → K.

Lemma insert_sorted_perm (x : A) (l : list A) :
  Permutation (insert_sorted key x l) (x :: l).
Proof.
  induction l as [|y l IH]; simpl; [done|].
  destruct (less (key y) (key x)); [|done].
  rewrite IH. apply perm_swap.
Qed.

Lemma sort_ascending_perm (l : list A) : Permutation (sort_ascending key l) l.
Proof.
  induction l as [|x l IH]; simpl; [done|].
  by rewrite insert_sorted_perm, IH.
Qed.

Lemma sorted_perm (reverse : bool) (l : list A) :
  Permutation (sorted key reverse l) l.
Proof.
  unfold sorted. destruct reverse; [|apply sort_ascending_perm].
  by rewrite <- Permutation_rev, sort_ascending_perm, <- Permutation_rev.
Qed.

(** The order [le] that [<] decides on the keys satisfying [ok]. *)
Variable ok : K → Prop.
Variable le : K → K → Prop.
Hypothesis less_le : ∀ a b, ok a → ok b → less a b = true → le a b.
Hypothesis not_less_le : ∀ a b, ok a → ok b → less a b = false → le b a.
Hypothesis le_trans : ∀ a b c, ok a → ok b → ok c → le a b → le b c → le a c.

Let ascending (x y : A) : Prop := le (key x) (key y).
Let good (x : A) : Prop := ok (key x).

Lemma insert_sorted_ascending (x : A) (l : list A) :
  good x → Forall good l →
  StronglySorted ascending l → StronglySorted ascending (insert_sorted key x l).
Proof.
  intros Hx Hl Hs. induction l as [|y l IH]; simpl.
  - repeat constructor.
  - apply Forall_cons in Hl as [Hy Hl].
    apply StronglySorted_cons in Hs as [Hyl Hs].
    destruct (less (key y) (key x)) eqn:E.
    + apply StronglySorted_cons. split; [|by apply IH].
      rewrite (insert_sorted_perm x l). constructor; [|done].
      by apply less_le.
    + apply StronglySorted_cons. split; [|by apply StronglySorted_cons].
      assert (ascending x y) as Hxy by by apply not_less_le.
      constructor; [done|].
      rewrite Forall_forall in Hyl, Hl. apply Forall_forall. intros z Hz.
      apply (le_trans (key x) (key y) (key z));
        [exact Hx|exact Hy|by apply Hl|exact Hxy|by apply Hyl].
Qed.

Lemma sort_ascending_sorted (l : list A) :
  Forall good l → StronglySorted ascending (sort_ascending key l).
Proof.
  induction l as [|x l IH]; simpl; [constructor|].
  intros [Hx Hl]%Forall_cons.
  apply insert_sorted_ascending; [done| |by apply IH].
  by rewrite sort_ascending_perm.
Qed.

(** A reversed sort lists the keys from the largest to the smallest. *)
Lemma sorted_reverse_descending (l : list A) :
  Forall good l → StronglySorted (flip ascending) (sorted key true l).
Proof.
  intros Hl. unfold sorted.
  assert (Forall good (rev l)) as Hr by by rewrite <- Permutation_rev.
  apply sort_ascending_sorted in Hr. revert Hr.
  generalize (sort_ascending key (rev l)). intros m Hm.
  induction Hm as [|x m Hm IH Hx]; simpl; [constructor|].
  apply StronglySorted_app_2; [|done|repeat constructor].
  intros y z Hy Hz. apply list_elem_of_In, in_rev, list_elem_of_In in Hy.
  apply list_elem_of_singleton in Hz as ->.
  rewrite Forall_forall in Hx. by apply Hx.
Qed.
End SortFacts.

Lemma slice_to_prefix {A : Type} (n : Z) (l : list A) :
  ∃ rest, l = (slice_to n l ++ rest)%list.
Proof.
  unfold slice_to. destruct (0 <=? n)%Z.
  - exists (skipn (Z.to_nat n) l). by rewrite firstn_skipn.
  - exists (skipn (Z.to_nat (Z.of_nat (length l) + n)) l). by rewrite firstn_skipn.
Qed.

Lemma slice_to_length {A : Type} (n : Z) (l : list A) :
  (0 ≤ n)%Z → (Z.of_nat (length (slice_to n l)) ≤ n)%Z.
Proof.
  intros Hn. unfold slice_to.
  destruct (0 <=? n)%Z eqn:E; [|apply Z.leb_gt in E; lia].
  rewrite length_firstn. lia.
Qed.

Lemma slice_to_In {A : Type} (n : Z) (l : list A) (x : A) :
  In x (slice_to n l) → In x l.
Proof.
  destruct (slice_to_prefix n l) as [rest Hl]. intros Hx.
  rewrite Hl. apply in_or_app. by left.
Qed.

Lemma slice_to_sorted {A : Type} (R : A → A → Prop) (n : Z) (l : list A) :
  StronglySorted R l → StronglySorted R (slice_to n l).
Proof.
  destruct (slice_to_prefix n l) as [rest Hl]. intros Hs.
  rewrite Hl in Hs. by apply StronglySorted_app_1_l in Hs.
Qed.

(** ** The order of the frequencies *)

Module FloatOrderFacts.
Import FloatOrder.

Lemma compare_point (x y : Num.float) :
  x ≠ S754_nan → y ≠ S754_nan → SFcompare x y = Some (lex (point x) (point y)).
Proof.
  intros Hx Hy.
  destruct x as [sx|sx| |sx mx ex], y as [sy|sy| |sy my ey]; try congruence;
    try (destruct sx); try (destruct sy); try reflexivity.
  simpl. rewrite Z.compare_opp, (Z.compare_antisym ex ey).
  by destruct (ex ?= ey)%Z.
Qed.

Lemma lex_Lt (p q : Z * Z * Z) : lex p q = Lt → lex_le p q.
Proof.
  destruct p as [[a b] c], q as [[a' b'] c']. unfold lex, lex_le.
  destruct (Z.compare_spec a a'), (Z.compare_spec b b'), (Z.compare_spec c c');
    intros; try discriminate; lia.
Qed.

Lemma lex_not_Lt (p q : Z * Z * Z) : lex p q ≠ Lt → lex_le q p.
Proof.
  destruct p as [[a b] c], q as [[a' b'] c']. unfold lex, lex_le.
  destruct (Z.compare_spec a a'), (Z.compare_spec b b'), (Z.compare_spec c c');
    intros; try congruence; lia.
Qed.

Lemma lex_le_iff (p q : Z * Z * Z) : lex p q ≠ Gt ↔ lex_le p q.
Proof.
  destruct p as [[a b] c], q as [[a' b'] c']. unfold lex, lex_le.
  destruct (Z.compare_spec a a'), (Z.compare_spec b b'), (Z.compare_spec c c');
    split; intros; try congruence; lia.
Qed.

Lemma leb_point (x y : Num.float) :
  x ≠ S754_nan → y ≠ S754_nan →
  SFleb x y = true ↔ lex_le (point x) (point y).
Proof.
  intros Hx Hy. unfold SFleb. rewrite compare_point by done.
  rewrite <- lex_le_iff. by destruct (lex (point x) (point y)).
Qed.

Lemma ltb_leb (x y : Num.float) : SFltb x y = true → SFleb x y = true.
Proof. unfold SFltb, SFleb. by destruct (SFcompare x y) as [[]|]. Qed.

Lemma not_ltb_leb (x y : Num.float) :
  x ≠ S754_nan → y ≠ S754_nan → SFltb x y = false → SFleb y x = true.
Proof.
  intros Hx Hy Hlt. apply leb_point; [done..|]. apply lex_not_Lt.
  unfold SFltb in Hlt. rewrite compare_point in Hlt by done.
  by destruct (lex (point x) (point y)).
Qed.

Lemma leb_trans (x y z : Num.float) :
  x ≠ S754_nan → y ≠ S754_nan → z ≠ S754_nan →
  SFleb x y = true → SFleb y z = true → SFleb x z = true.
Proof.
  intros Hx Hy Hz. rewrite !leb_point by done.
  destruct (point x) as [[a b] c], (point y) as [[a' b'] c'],
    (point z) as [[a'' b''] c'']. unfold lex_le. lia.
Qed.

Lemma leb_refl (x : Num.float) : x ≠ S754_nan → SFleb x x = true.
Proof.
  intros Hx. apply leb_point; [done..|].
  destruct (point x) as [[a b] c]. unfold lex_le. lia.
Qed.

Lemma lex_refl (p : Z * Z * Z) : lex p p = Eq.
Proof. destruct p as [[a b] c]. unfold lex. by rewrite !Z.compare_refl. Qed.

Lemma ltb_irrefl (x : Num.float) : SFltb x x = false.
Proof.
  assert (x = S754_nan ∨ x ≠ S754_nan) as [->|Hx]
    by (destruct x; (by left) || (by right)); [done|].
  unfold SFltb. by rewrite compare_point, lex_refl.
Qed.

Lemma ltb_not_nan (x y : Num.float) :
  SFltb x y = true → x ≠ S754_nan ∧ y ≠ S754_nan.
Proof. destruct x, y; try done; unfold SFltb; simpl; by destruct s. Qed.

Lemma ltb_asym (x y : Num.float) : SFltb x y = true → SFltb y x = false.
Proof.
  intros Hlt. destruct (ltb_not_nan _ _ Hlt) as [Hx Hy].
  pose proof (ltb_leb _ _ Hlt) as Hle. apply leb_point in Hle; [|done..].
  unfold SFltb in *. rewrite compare_point in * by done.
  destruct (lex (point y) (point x)) eqn:E; try done.
  apply lex_Lt in E.
  destruct (point x) as [[a b] c], (point y) as [[a' b'] c'].
  unfold lex, lex_le in *.
  destruct (Z.compare_spec a a'), (Z.compare_spec b b'), (Z.compare_spec c c');
    try discriminate; exfalso; lia.
Qed.

End FloatOrderFacts.

(** ** Additive aggregation of the ngram adapter *)

Lemma get_bump (w w' : string) (c : Z) (p : pos_set) (d : dict Z) :
  get w (bump w' c p d) = if decide (w' = w) then bump_value (get w d) (c, p) else get w d.
Proof.
  unfold bump. rewrite modify_setdefault, get_set.
  case_decide as E; [by subst|done].
Qed.

Lemma ngram_step_bump (d : dict Z) (line : string) :
  ngram_step d line =
  match parse_ngram_line line with
  | (Some w, c, p) => if keep_word w then bump w c p d else d
  | _ => d
  end.
Proof.
  unfold ngram_step. by destruct (parse_ngram_line line) as [[[w|] c] p].
Qed.

Lemma get_ngram_step (w : string) (d : dict Z) (line : string) :
  get w (ngram_step d line) =
  match ngram_hit w line with
  | Some hit => bump_value (get w d) hit
  | None => get w d
  end.
Proof.
  rewrite ngram_step_bump. unfold ngram_hit.
  destruct (parse_ngram_line line) as [[[w'|] c] p]; [|done].
  destruct (keep_word w'); simpl.
  - rewrite get_bump. case_decide as E.
    + subst. by rewrite String.eqb_refl.
    + apply String.eqb_neq in E. by rewrite E.
  - by destruct (String.eqb w' w).
Qed.

Lemma get_merge_entry (w : string) (d : dict Z) (item : string * entry Z) :
  get w (merge_entry d item) =
  if decide (fst item = w)
  then bump_value (get w d) (freq (snd item), pos (snd item))
  else get w d.
Proof. destruct item as [w' data]. apply get_bump. Qed.

Lemma bump_value_fold (e : entry Z) (hits : list (Z * pos_set)) :
  fold_left bump_value hits (Some e) =
  Some (Entry (freq e + foldr Z.add 0 (map fst hits))%Z (pos e ∪ ⋃ (map snd hits))).
Proof.
  revert e. induction hits as [|[c p] hits IH]; intros [f q]; simpl.
  - f_equal. f_equal; [lia|]. by rewrite (right_id_L ∅ (∪)).
  - unfold bump_value at 2. simpl. rewrite IH. simpl.
    f_equal. f_equal; [lia|]. by rewrite (assoc_L (∪)).
Qed.

Lemma bump_value_total (hits : list (Z * pos_set)) :
  fold_left bump_value hits None = total hits.
Proof.
  destruct hits as [|[c p] hits]; [done|].
  simpl fold_left. unfold bump_value at 2. simpl default.
  rewrite bump_value_fold. unfold total. simpl.
  f_equal. f_equal. by rewrite (left_id_L ∅ (∪)).
Qed.

Lemma get_fold_ngram_step (w : string) (lines : list string) (d : dict Z) :
  get w (fold_left ngram_step lines d) =
  fold_left bump_value (omap (ngram_hit w) lines) (get w d).
Proof.
  revert d. induction lines as [|line lines IH]; intros d; simpl; [done|].
  rewrite IH, get_ngram_step. by destruct (ngram_hit w line).
Qed.

Lemma NoDup_keys_bump (w : string) (c : Z) (p : pos_set) (d : dict Z) :
  List.NoDup (map fst d) → List.NoDup (map fst (bump w c p d)).
Proof. unfold bump. rewrite modify_setdefault. apply NoDup_keys_set. Qed.

Lemma NoDup_keys_process_ngram_lines (lines : list string) :
  List.NoDup (map fst (process_ngram_lines lines)).
Proof.
  unfold process_ngram_lines.
  assert (List.NoDup (map fst ([] : dict Z))) as Hd by constructor.
  revert Hd. generalize ([] : dict Z).
  induction lines as [|line lines IH]; intros d Hd; simpl; [done|].
  apply IH. rewrite ngram_step_bump.
  destruct (parse_ngram_line line) as [[[w|] c] p]; [|done].
  destruct (keep_word w); [|done]. by apply NoDup_keys_bump.
Qed.

Lemma NoDup_keys_process_ngram_file (e : env) (file : string) :
  List.NoDup (map fst (process_ngram_file e file)).
Proof.
  unfold process_ngram_file. destruct (fs e file); [|constructor].
  apply NoDup_keys_process_ngram_lines.
Qed.

Lemma get_merge_file (w : string) (all_word_data file_data : dict Z) :
  List.NoDup (map fst file_data) →
  get w (merge_file all_word_data file_data) =
  match get w file_data with
  | Some data => bump_value (get w all_word_data) (freq data, pos data)
  | None => get w all_word_data
  end.
Proof.
  intros Hd. unfold merge_file.
  transitivity (fold_left bump_value
    (omap (fun item : string * entry Z =>
             if decide (fst item = w) then Some (freq (snd item), pos (snd item))
             else None) file_data) (get w all_word_data)).
  - clear Hd. revert all_word_data.
    induction file_data as [|item fd IH]; intros d; simpl; [done|].
    rewrite IH, get_merge_entry. by case_decide.
  - rewrite (items_of_key (fun data => (freq data, pos data))) by done.
    by destruct (get w file_data).
Qed.

Lemma get_ngram_files_step (e : env) (w : string) (d : dict Z) (file : string) :
  get w (ngram_files_step e d file) =
  match file_hit e w file with
  | Some hit => bump_value (get w d) hit
  | None => get w d
  end.
Proof.
  unfold ngram_files_step, file_hit. destruct (path_exists e file); simpl; [|done].
  rewrite get_merge_file by apply NoDup_keys_process_ngram_file.
  by destruct (get w (process_ngram_file e file)).
Qed.

Lemma get_merge_ngram_files (e : env) (w : string) (files : list string) :
  get w (merge_ngram_files e files) = total (omap (file_hit e w) files).
Proof.
  unfold merge_ngram_files. rewrite <- bump_value_total.
  change (@None (entry Z)) with (get w ([] : dict Z)).
  generalize ([] : dict Z). induction files as [|file files IH]; intros d; simpl; [done|].
  rewrite IH, get_ngram_files_step. by destruct (file_hit e w file).
Qed.

(** C1: the ngram merge is additive at both levels. In one file the total
    recorded for a bare word is the sum of the match counts of its lines
    and the union of their tags; over several files the totals of the files
    are summed again and their tag sets united. "the" with counts 100 and
    50 in one file totals 150, and two such files total 300. *)
Theorem ngram_merge_additive :
  (∀ (lines : list string) (w : string),
     get w (process_ngram_lines lines) = total (omap (ngram_hit w) lines))
  ∧ (∀ (e : env) (files : list string) (w : string),
       get w (merge_ngram_files e files) = total (omap (file_hit e w) files))
  ∧ get "the" (process_ngram_lines
                 ["the" ++ String TAB "2000" ++ String TAB "100";
                  "the" ++ String TAB "2001" ++ String TAB "50"])
    = Some (Entry 150%Z ∅)
  ∧ get "the" (merge_ngram_files
                 (two_files "1gram-a" "1gram-b"
                    ("the" ++ String TAB "2000" ++ String TAB "100" ++ NL ++
                     "the" ++ String TAB "2001" ++ String TAB "50" ++ NL))
                 ["1gram-a"; "1gram-b"])
    = Some (Entry 300%Z ∅).
Proof.
  split; [|split; [|split; by vm_compute]].
  - intros lines w. unfold process_ngram_lines.
    by rewrite get_fold_ngram_step, bump_value_total.
  - intros e files w. apply get_merge_ngram_files.
Qed.

(** ** Keep-the-larger aggregation of the lemma-frequency and CSV adapters *)

Lemma get_wordfreq_data_line (w : string) (d : dict Num.float) (line : string) :
  get w (wordfreq_data_line d line) =
  match wordfreq_hit w line with
  | Some (f, p) =>
      Some match get w d with
           | None => Entry f p
           | Some e => Entry (fmax (freq e) f) (pos e ∪ p)
           end
  | None => get w d
  end.
Proof.
  unfold wordfreq_data_line, wordfreq_hit.
  destruct (parse_wordfrequency_line line) as [[[w'|] [f|]] p]; try done.
  destruct (keep_word w'); simpl; [|done].
  destruct (String.eqb w' w) eqn:E.
  - apply String.eqb_eq in E as ->.
    destruct (get w d) as [e|]; by rewrite get_set_eq.
  - apply String.eqb_neq in E.
    destruct (get w' d) as [e|]; by rewrite get_set_ne.
Qed.

Lemma get_csv_data_line (w : string) (d : dict Num.float) (line : string) :
  get w (csv_data_line d line) =
  match csv_hit w line with
  | Some f =>
      Some match get w d with
           | None => Entry f ∅
           | Some e => Entry (fmax (freq e) f) (pos e)
           end
  | None => get w d
  end.
Proof.
  unfold csv_data_line, csv_hit.
  destruct (Text.split "," (Text.strip line)) as [|p0 [|p1 ps]]; try done.
  destruct (Num.py_float (Text.strip p1)) as [f|]; [|done].
  simpl. set (word := Text.lower (Text.strip p0)).
  destruct (keep_word word); simpl; [|done].
  destruct (String.eqb word w) eqn:E.
  - apply String.eqb_eq in E as ->.
    destruct (get w d) as [[f0 p0']|] eqn:Eg; [|by rewrite get_set_eq].
    unfold fmax. simpl. destruct (fgt f f0); [by rewrite get_set_eq|done].
  - apply String.eqb_neq in E.
    destruct (get word d) as [e|]; [|by rewrite get_set_ne].
    destruct (fgt f (freq e)); [by rewrite get_set_ne|done].
Qed.

Lemma get_fold_wordfreq_some (w : string) (lines : list string)
    (d : dict Num.float) (e : entry Num.float) :
  get w d = Some e →
  get w (fold_left wordfreq_data_line lines d) =
  Some (Entry (fold_left fmax (map fst (omap (wordfreq_hit w) lines)) (freq e))
              (pos e ∪ ⋃ (map snd (omap (wordfreq_hit w) lines)))).
Proof.
  revert d e. induction lines as [|line lines IH]; intros d [f0 p0] Hd; simpl.
  - by rewrite (right_id_L ∅ (∪)).
  - pose proof (get_wordfreq_data_line w d line) as Hs. rewrite Hd in Hs.
    destruct (wordfreq_hit w line) as [[f p]|]; simpl.
    + rewrite (IH _ _ Hs). simpl. by rewrite (assoc_L (∪)).
    + by rewrite (IH _ _ Hs).
Qed.

Lemma get_fold_wordfreq (w : string) (lines : list string) (d : dict Num.float) :
  get w d = None →
  get w (fold_left wordfreq_data_line lines d) = best (omap (wordfreq_hit w) lines).
Proof.
  revert d. induction lines as [|line lines IH]; intros d Hd; simpl; [done|].
  pose proof (get_wordfreq_data_line w d line) as Hs. rewrite Hd in Hs.
  destruct (wordfreq_hit w line) as [[f p]|]; simpl; [|by apply IH].
  by rewrite (get_fold_wordfreq_some _ _ _ _ Hs).
Qed.

Lemma get_fold_csv_some (w : string) (lines : list string)
    (d : dict Num.float) (e : entry Num.float) :
  get w d = Some e →
  get w (fold_left csv_data_line lines d) =
  Some (Entry (fold_left fmax (omap (csv_hit w) lines) (freq e)) (pos e)).
Proof.
  revert d e. induction lines as [|line lines IH]; intros d [f0 p0] Hd; simpl; [done|].
  pose proof (get_csv_data_line w d line) as Hs. rewrite Hd in Hs.
  destruct (csv_hit w line) as [f|]; simpl; by rewrite (IH _ _ Hs).
Qed.

Lemma get_fold_csv (w : string) (lines : list string) (d : dict Num.float) :
  get w d = None →
  get w (fold_left csv_data_line lines d) = best_csv (omap (csv_hit w) lines).
Proof.
  revert d. induction lines as [|line lines IH]; intros d Hd; simpl; [done|].
  pose proof (get_csv_data_line w d line) as Hs. rewrite Hd in Hs.
  destruct (csv_hit w line) as [f|]; simpl; [|by apply IH].
  by rewrite (get_fold_csv_some _ _ _ _ Hs).
Qed.

Lemma fmax_larger (a b : Num.float) :
  (fmax a b = a ∨ fmax a b = b)
  ∧ (a ≠ S754_nan → b ≠ S754_nan →
     SFleb a (fmax a b) = true ∧ SFleb b (fmax a b) = true).
Proof.
  unfold fmax, fgt. destruct (SFltb a b) eqn:E.
  - split; [by right|]. intros Ha Hb.
    split; [by apply FloatOrderFacts.ltb_leb|by apply FloatOrderFacts.leb_refl].
  - split; [by left|]. intros Ha Hb.
    split; [by apply FloatOrderFacts.leb_refl|by apply FloatOrderFacts.not_ltb_leb].
Qed.

(** ** Loops and their successive states *)

Section TraceFacts.
Context {S X : Type}.
Variable step : S → X → S.
Variable ok : X → Prop.
Variable Inv : S → Prop.
Variable R : S → S → Prop.
Hypothesis step_ok : ∀ s x, ok x → Inv s → Inv (step s x) ∧ R s (step s x).

Lemma trace_head (s : S) (xs : list X) : ∃ tl, trace step s xs = s :: tl.
Proof. destruct xs; by eexists. Qed.

Lemma trace_chain (xs : list X) (s : S) :
  Forall ok xs → Inv s →
  Forall Inv (trace step s xs) ∧ Sorted R (trace step s xs).
Proof.
  revert s. induction xs as [|x xs IH]; intros s Hxs Hs; simpl.
  - split; repeat constructor; done.
  - apply Forall_cons in Hxs as [Hx Hxs].
    destruct (step_ok s x Hx Hs) as [Hs' HR].
    destruct (IH (step s x) Hxs Hs') as [HI HS].
    split; [by constructor|]. constructor; [done|].
    destruct (trace_head (step s x) xs) as [tl ->]. by constructor.
Qed.

Hypothesis R_refl : ∀ s, R s s.
Hypothesis R_trans : ∀ s1 s2 s3, R s1 s2 → R s2 s3 → R s1 s3.

Lemma fold_chain (xs : list X) (s : S) :
  Forall ok xs → Inv s →
  Inv (fold_left step xs s) ∧ R s (fold_left step xs s).
Proof.
  revert s. induction xs as [|x xs IH]; intros s Hxs Hs; simpl; [done|].
  apply Forall_cons in Hxs as [Hx Hxs].
  destruct (step_ok s x Hx Hs) as [Hs' HR].
  destruct (IH (step s x) Hxs Hs') as [HI HS].
  split; [done|]. by apply (R_trans _ (step s x)).
Qed.
End TraceFacts.

Section GrowFacts.
Context {F : Type}.
Variable le : F → F → Prop.
Hypothesis le_refl : ∀ x, le x x.
Hypothesis le_trans : ∀ x y z, le x y → le y z → le x z.

Lemma grows_refl (d : dict F) : grows le d d.
Proof. intros w e Hw. by exists e. Qed.

Lemma grows_trans (d1 d2 d3 : dict F) :
  grows le d1 d2 → grows le d2 d3 → grows le d1 d3.
Proof.
  intros H12 H23 w e Hw.
  destruct (H12 w e Hw) as (e2 & Hw2 & Hle2).
  destruct (H23 w e2 Hw2) as (e3 & Hw3 & Hle3).
  exists e3. split; [done|]. by apply (le_trans _ (freq e2)).
Qed.

(** Storing under [k] a value that [le] relates to the old one. *)
Lemma grows_set (k : string) (v : entry F) (d : dict F) :
  (∀ e, get k d = Some e → le (freq e) (freq v)) → grows le d (set k v d).
Proof.
  intros Hv w e Hw. rewrite get_set. case_decide as E.
  - subst. exists v. split; [done|]. by apply Hv.
  - by exists e.
Qed.
End GrowFacts.

Lemma In_set {V : Type} (k : string) (v : V) (d : list (string * V)) (x : string * V) :
  In x (set k v d) → x = (k, v) ∨ In x d.
Proof.
  induction d as [|[k' v'] d IH]; simpl.
  - intros [<-|[]]. by left.
  - destruct (String.eqb k' k); simpl.
    + intros [<-|Hin]; [by left|right; by right].
    + intros [<-|Hin]; [right; by left|].
      destruct (IH Hin) as [->|?]; [by left|right; by right].
Qed.

Lemma all_freqs_set {F : Type} (P : F → Prop) (k : string) (v : entry F) (d : dict F) :
  P (freq v) → all_freqs P d → all_freqs P (set k v d).
Proof.
  unfold all_freqs. rewrite !Forall_forall. intros Hv Hd x Hx%list_elem_of_In%In_set.
  destruct Hx as [->|Hx]; [done|]. by apply Hd, list_elem_of_In.
Qed.

Lemma all_freqs_get {F : Type} (P : F → Prop) (k : string) (e : entry F) (d : dict F) :
  all_freqs P d → get k d = Some e → P (freq e).
Proof.
  unfold all_freqs. rewrite Forall_forall. intros Hd Hk%get_Some_In.
  by apply (Hd (k, e)), list_elem_of_In.
Qed.

(** ** Frequencies that only grow *)

Lemma bump_ok (w : string) (c : Z) (p : pos_set) (d : dict Z) :
  (0 ≤ c)%Z → all_freqs (Z.le 0) d →
  all_freqs (Z.le 0) (bump w c p d) ∧ grows Z.le d (bump w c p d).
Proof.
  intros Hc Hd. unfold bump. rewrite modify_setdefault. split.
  - apply all_freqs_set; [|done]. simpl.
    destruct (get w d) as [e|] eqn:E; simpl; [|lia].
    pose proof (all_freqs_get _ _ _ _ Hd E). simpl in *. lia.
  - apply grows_set; [lia|]. intros e ->. simpl. lia.
Qed.

Lemma ngram_step_ok (d : dict Z) (line : string) :
  (0 ≤ ngram_count line)%Z → all_freqs (Z.le 0) d →
  all_freqs (Z.le 0) (ngram_step d line) ∧ grows Z.le d (ngram_step d line).
Proof.
  unfold ngram_count. rewrite ngram_step_bump.
  destruct (parse_ngram_line line) as [[[w|] c] p]; simpl;
    [|intros; split; [done|apply grows_refl; lia]].
  destruct (keep_word w); [by apply bump_ok|].
  intros; split; [done|apply grows_refl; lia].
Qed.

Lemma merge_entry_ok (d : dict Z) (item : string * entry Z) :
  (0 ≤ freq (snd item))%Z → all_freqs (Z.le 0) d →
  all_freqs (Z.le 0) (merge_entry d item) ∧ grows Z.le d (merge_entry d item).
Proof. destruct item as [w data]. apply bump_ok. Qed.

Lemma process_ngram_file_nonneg (e : env) (file : string) :
  nonneg_file e file → all_freqs (Z.le 0) (process_ngram_file e file).
Proof.
  unfold process_ngram_file, nonneg_file. intros Hf.
  destruct (fs e file) as [text|]; [|constructor].
  apply (fold_chain ngram_step _ (all_freqs (Z.le 0)) (grows Z.le) ngram_step_ok).
  - intros. apply grows_refl. lia.
  - apply grows_trans. lia.
  - by apply Hf.
  - constructor.
Qed.

Lemma ngram_files_step_ok (e : env) (d : dict Z) (file : string) :
  nonneg_file e file → all_freqs (Z.le 0) d →
  all_freqs (Z.le 0) (ngram_files_step e d file)
  ∧ grows Z.le d (ngram_files_step e d file).
Proof.
  intros Hf Hd. unfold ngram_files_step.
  destruct (path_exists e file); simpl; [|split; [done|apply grows_refl; lia]].
  apply (fold_chain merge_entry _ (all_freqs (Z.le 0)) (grows Z.le) merge_entry_ok).
  - intros. apply grows_refl. lia.
  - apply grows_trans. lia.
  - by apply process_ngram_file_nonneg.
  - done.
Qed.

Lemma fmax_not_less (old new : Num.float) : not_less old (fmax old new).
Proof.
  unfold not_less, fmax, fgt. destruct (SFltb old new) eqn:E.
  - by apply FloatOrderFacts.ltb_asym.
  - apply FloatOrderFacts.ltb_irrefl.
Qed.

Lemma wordfreq_data_line_grows (d : dict Num.float) (line : string) :
  grows not_less d (wordfreq_data_line d line).
Proof.
  intros w e Hw. rewrite get_wordfreq_data_line, Hw.
  destruct (wordfreq_hit w line) as [[f p]|].
  - eexists. split; [done|]. apply fmax_not_less.
  - exists e. split; [done|]. apply FloatOrderFacts.ltb_irrefl.
Qed.

Lemma csv_data_line_grows (d : dict Num.float) (line : string) :
  grows not_less d (csv_data_line d line).
Proof.
  intros w e Hw. rewrite get_csv_data_line, Hw.
  destruct (csv_hit w line) as [f|].
  - eexists. split; [done|]. apply fmax_not_less.
  - exists e. split; [done|]. apply FloatOrderFacts.ltb_irrefl.
Qed.

Lemma wordfreq_data_line_nonneg (d : dict Num.float) (line : string) :
  wordfreq_freq_ok line → all_freqs nonneg_float d →
  all_freqs nonneg_float (wordfreq_data_line d line).
Proof.
  unfold wordfreq_freq_ok, wordfreq_data_line.
  destruct (parse_wordfrequency_line line) as [[[w|] [f|]] p]; try done.
  intros Hf Hd. destruct (keep_word w); [|done].
  destruct (get w d) as [e|] eqn:E; apply all_freqs_set; try done.
  simpl. destruct (fgt f (freq e)); [done|]. by apply (all_freqs_get _ w e d).
Qed.

Lemma csv_data_line_nonneg (d : dict Num.float) (line : string) :
  csv_freq_ok line → all_freqs nonneg_float d →
  all_freqs nonneg_float (csv_data_line d line).
Proof.
  unfold csv_freq_ok, csv_freq, csv_data_line.
  destruct (Text.split "," (Text.strip line)) as [|p0 [|p1 ps]]; try done.
  destruct (Num.py_float (Text.strip p1)) as [f|]; [|done].
  intros Hf Hd. simpl. destruct (keep_word _); [|done].
  destruct (get _ d) as [e|] eqn:E; [|by apply all_freqs_set].
  destruct (fgt f (freq e)); [by apply all_freqs_set|done].
Qed.

Lemma Sorted_map {A B : Type} (f : A → B) (R : B → B → Prop) (l : list A) :
  Sorted (fun x y => R (f x) (f y)) l → Sorted R (map f l).
Proof.
  intros Hs. induction Hs as [|x m Hm IH Hx]; simpl; [constructor|].
  constructor; [exact IH|]. destruct Hx; simpl; by constructor.
Qed.

Lemma Forall_enumerate {A : Type} (P : A → Prop) (l : list A) :
  Forall P l → Forall (fun item => P (snd item)) (enumerate l).
Proof.
  intros Hl. unfold enumerate. generalize 0%nat.
  induction Hl as [|x m Hx Hm IH]; intros start; simpl; [constructor|].
  constructor; [done|]. apply IH.
Qed.

Lemma wordfreq_step_ok (st : bool * dict Num.float) (item : nat * string) :
  grows not_less (snd st) (snd (wordfreq_step st item))
  ∧ (wordfreq_freq_ok (snd item) → all_freqs nonneg_float (snd st) →
     all_freqs nonneg_float (snd (wordfreq_step st item))).
Proof.
  destruct st as [hs d], item as [i line]. unfold wordfreq_step.
  destruct (negb hs && _); simpl.
  - split; [|done]. apply grows_refl, FloatOrderFacts.ltb_irrefl.
  - split; [apply wordfreq_data_line_grows|apply wordfreq_data_line_nonneg].
Qed.

Lemma csv_step_ok (st : bool * dict Num.float) (line : string) :
  grows not_less (snd st) (snd (csv_step st line))
  ∧ (csv_freq_ok line → all_freqs nonneg_float (snd st) →
     all_freqs nonneg_float (snd (csv_step st line))).
Proof.
  destruct st as [hs d]. unfold csv_step.
  destruct (negb hs && _); simpl.
  - split; [|done]. apply grows_refl, FloatOrderFacts.ltb_irrefl.
  - split; [apply csv_data_line_grows|apply csv_data_line_nonneg].
Qed.

Lemma Forall_True {A : Type} (l : list A) : Forall (fun _ => True) l.
Proof. by apply Forall_forall. Qed.

(** C7, as amended: while every frequency read from the input is not
    negative, every frequency recorded at any point of a run is not
    negative, and each step of the ngram loops (over the lines of a file,
    over the entries of a file's result, over the files) leaves every
    recorded frequency at least as large as before. In the lemma-frequency
    and CSV loops no step makes a recorded frequency smaller, whatever the
    input holds. *)
Theorem frequencies_only_grow :
  (∀ lines : list string,
     Forall (fun line => (0 ≤ ngram_count line)%Z) lines →
     Forall (all_freqs (Z.le 0)) (trace ngram_step [] lines)
     ∧ Sorted (grows Z.le) (trace ngram_step [] lines))
  ∧ (∀ all_word_data file_data : dict Z,
       all_freqs (Z.le 0) all_word_data → all_freqs (Z.le 0) file_data →
       Forall (all_freqs (Z.le 0)) (trace merge_entry all_word_data file_data)
       ∧ Sorted (grows Z.le) (trace merge_entry all_word_data file_data))
  ∧ (∀ (e : env) (files : list string),
       Forall (nonneg_file e) files →
       Forall (all_freqs (Z.le 0)) (trace (ngram_files_step e) [] files)
       ∧ Sorted (grows Z.le) (trace (ngram_files_step e) [] files))
  ∧ (∀ lines : list string,
       Sorted (grows not_less)
         (map snd (trace wordfreq_step (false, []) (enumerate lines)))
       ∧ (Forall wordfreq_freq_ok lines →
          Forall (all_freqs nonneg_float)
            (map snd (trace wordfreq_step (false, []) (enumerate lines)))))
  ∧ (∀ lines : list string,
       Sorted (grows not_less) (map snd (trace csv_step (false, []) lines))
       ∧ (Forall csv_freq_ok lines →
          Forall (all_freqs nonneg_float)
            (map snd (trace csv_step (false, []) lines)))).
Proof.
  split; [|split; [|split; [|split]]].
  - intros lines Hl.
    apply (trace_chain ngram_step _ _ _ ngram_step_ok); [done|constructor].
  - intros d fd Hd Hfd.
    by apply (trace_chain merge_entry _ _ _ merge_entry_ok).
  - intros e files Hf.
    apply (trace_chain (ngram_files_step e) _ _ _ (ngram_files_step_ok e));
      [done|constructor].
  - intros lines. split.
    + apply Sorted_map.
      apply (trace_chain wordfreq_step (fun _ => True) (fun _ => True)
               (fun s s' => grows not_less (snd s) (snd s'))); [|apply Forall_True|done].
      intros st item _ _. split; [done|apply wordfreq_step_ok].
    + intros Hl. apply Forall_map.
      apply (trace_chain wordfreq_step (fun item => wordfreq_freq_ok (snd item))
               (fun s => all_freqs nonneg_float (snd s)) (fun _ _ => True));
        [|by apply Forall_enumerate|constructor].
      intros st item Hi Hs. split; [by apply wordfreq_step_ok|done].
  - intros lines. split.
    + apply Sorted_map.
      apply (trace_chain csv_step (fun _ => True) (fun _ => True)
               (fun s s' => grows not_less (snd s) (snd s'))); [|apply Forall_True|done].
      intros st item _ _. split; [done|apply csv_step_ok].
    + intros Hl. apply Forall_map.
      apply (trace_chain csv_step csv_freq_ok
               (fun s => all_freqs nonneg_float (snd s)) (fun _ _ => True));
        [|done|constructor].
      intros st item Hi Hs. split; [by apply csv_step_ok|done].
Qed.

Lemma frequencies_only_grow_witness :
  Forall (all_freqs (Z.le 0))
    (trace ngram_step []
       ["the" ++ String TAB "2000" ++ String TAB "100";
        "the" ++ String TAB "2001" ++ String TAB "50"])
  ∧ Sorted (grows Z.le)
      (trace ngram_step []
         ["the" ++ String TAB "2000" ++ String TAB "100";
          "the" ++ String TAB "2001" ++ String TAB "50"]).
Proof.
  apply (proj1 frequencies_only_grow).
  repeat constructor; by vm_compute.
Defined.

(** C7 fails as stated: a negative match count is read like any other
    integer, so after the lines "the 2000 5" and "the 2001 -7" the recorded
    total of "the" has gone from 5 down to -2, which is negative. *)
Lemma frequencies_counterexample :
  get "the" (ngram_step [] ("the" ++ String TAB "2000" ++ String TAB "5"))
    = Some (Entry 5%Z ∅)
  ∧ get "the" (ngram_step
                 (ngram_step [] ("the" ++ String TAB "2000" ++ String TAB "5"))
                 ("the" ++ String TAB "2001" ++ String TAB "-7"))
    = Some (Entry (-2)%Z ∅)
  ∧ ¬ Forall (all_freqs (Z.le 0))
        (trace ngram_step []
           ["the" ++ String TAB "2000" ++ String TAB "5";
            "the" ++ String TAB "2001" ++ String TAB "-7"])
  ∧ ¬ Sorted (grows Z.le)
        (trace ngram_step []
           ["the" ++ String TAB "2000" ++ String TAB "5";
            "the" ++ String TAB "2001" ++ String TAB "-7"]).
Proof.
  split; [by vm_compute|]. split; [by vm_compute|]. split.
  - intros H. apply Forall_cons in H as [_ H]. apply Forall_cons in H as [_ H].
    apply Forall_cons in H as [H _]. apply Forall_cons in H as [H _].
    vm_compute in H. by apply H.
  - intros H. apply Sorted_inv in H as [H _]. apply Sorted_inv in H as [_ H].
    apply HdRel_inv in H.
    destruct (H "the" (Entry 5%Z ∅)) as (e' & He' & Hle); [by vm_compute|].
    vm_compute in He'. injection He' as <-. vm_compute in Hle. by apply Hle.
Qed.

(** ** The words the adapters record *)

Lemma good_keys_set {F : Type} (k : string) (v : entry F) (d : dict F) :
  good_word k → good_keys d → good_keys (set k v d).
Proof.
  unfold good_keys. rewrite !Forall_forall.
  intros Hk Hd x Hx%list_elem_of_In%In_set.
  destruct Hx as [->|Hx]; [done|]. by apply Hd, list_elem_of_In.
Qed.

Lemma parse_ngram_line_lower (line w : string) (c : Z) (p : pos_set) :
  parse_ngram_line line = (Some w, c, p) → Text.lower w = w.
Proof.
  unfold parse_ngram_line.
  destruct (Text.split TAB (Text.strip line)) as [|p0 [|p1 [|p2 ps]]]; try done.
  destruct (Text.has_chr "_" (Text.lower p0)).
  - pose proof (split_once_lower "_" (Text.lower p0) (lower_idem p0)) as Hl.
    destruct (Text.split_once "_" (Text.lower p0)) as [wp pp]. simpl in Hl.
    destruct (Num.py_int p2); [|done]. by intros [= <- _ _].
  - destruct (Num.py_int p2); [|done]. intros [= <- _ _]. apply lower_idem.
Qed.

Lemma parse_with_sep_lower (sep : ascii) (line w : string) (f : Num.float) (p : pos_set) :
  parse_with_sep sep line = Some (w, f, p) → Text.lower w = w.
Proof.
  unfold parse_with_sep. destruct (Text.has_chr sep line); [|done].
  destruct (Text.split sep (Text.strip line)) as [|p0 [|p1 [|p2 [|p3 ps]]]]; try done.
  destruct (Num.py_int p0); [|done].
  destruct (Text.has_chr "_" (Text.lower (Text.strip p1))).
  - pose proof (split_once_lower "_" (Text.lower (Text.strip p1))
                  (lower_idem (Text.strip p1))) as Hl.
    destruct (Text.split_once "_" (Text.lower (Text.strip p1))) as [wp pp].
    simpl in Hl. destruct (first_float _); [|done].
    destruct (Text.nonempty wp); [|done]. by intros [= <- _ _].
  - destruct (first_float _); [|done].
    destruct (Text.nonempty _); [|done]. intros [= <- _ _]. apply lower_idem.
Qed.

Lemma parse_wordfrequency_line_lower (line w : string) (o : option Num.float)
    (p : pos_set) :
  parse_wordfrequency_line line = (Some w, o, p) → Text.lower w = w.
Proof.
  unfold parse_wordfrequency_line. generalize [TAB; "|"%char; ","%char].
  intros seps. induction seps as [|sep seps IH]; simpl; [done|].
  destruct (parse_with_sep sep line) as [[[w' f'] p']|] eqn:E; [|done].
  intros [= <- _ _]. by apply parse_with_sep_lower in E.
Qed.

Lemma ngram_step_good (d : dict Z) (line : string) :
  good_keys d → good_keys (ngram_step d line).
Proof.
  intros Hd. rewrite ngram_step_bump.
  destruct (parse_ngram_line line) as [[[w|] c] p] eqn:E; [|done].
  destruct (keep_word w) eqn:Ek; [|done].
  unfold bump. rewrite modify_setdefault. apply good_keys_set; [|done].
  split; [done|]. by apply parse_ngram_line_lower in E.
Qed.

Lemma merge_entry_good (d : dict Z) (item : string * entry Z) :
  good_word (fst item) → good_keys d → good_keys (merge_entry d item).
Proof.
  destruct item as [w data]. intros Hw Hd. unfold merge_entry.
  rewrite modify_setdefault. by apply good_keys_set.
Qed.

Lemma fold_good {S X : Type} (step : S → X → S) (ok : X → Prop) (Inv : S → Prop)
    (xs : list X) (s : S) :
  (∀ s x, ok x → Inv s → Inv (step s x)) →
  Forall ok xs → Inv s → Inv (fold_left step xs s).
Proof.
  intros Hstep. revert s. induction xs as [|x xs IH]; intros s Hxs Hs; simpl; [done|].
  apply Forall_cons in Hxs as [Hx Hxs]. apply IH; [done|]. by apply Hstep.
Qed.

Lemma process_ngram_file_good (e : env) (file : string) :
  good_keys (process_ngram_file e file).
Proof.
  unfold process_ngram_file. destruct (fs e file); [|constructor].
  apply (fold_good ngram_step (fun _ => True) good_keys).
  - intros d line _. apply ngram_step_good.
  - apply Forall_True.
  - constructor.
Qed.

Lemma merge_ngram_files_good (e : env) (files : list string) :
  good_keys (merge_ngram_files e files).
Proof.
  apply (fold_good (ngram_files_step e) (fun _ => True) good_keys);
    [|apply Forall_True|constructor].
  intros d file _ Hd. unfold ngram_files_step.
  destruct (path_exists e file); simpl; [|done].
  apply (fold_good merge_entry (fun item => good_word (fst item)) good_keys);
    [apply merge_entry_good|apply process_ngram_file_good|done].
Qed.

Lemma wordfreq_data_line_good (d : dict Num.float) (line : string) :
  good_keys d → good_keys (wordfreq_data_line d line).
Proof.
  intros Hd. unfold wordfreq_data_line.
  destruct (parse_wordfrequency_line line) as [[[w|] [f|]] p] eqn:E; try done.
  destruct (keep_word w) eqn:Ek; [|done].
  apply parse_wordfrequency_line_lower in E.
  destruct (get w d); by apply good_keys_set.
Qed.

Lemma csv_data_line_good (d : dict Num.float) (line : string) :
  good_keys d → good_keys (csv_data_line d line).
Proof.
  intros Hd. unfold csv_data_line.
  destruct (Text.split "," (Text.strip line)) as [|p0 [|p1 ps]]; try done.
  destruct (Num.py_float (Text.strip p1)); [|done]. simpl.
  destruct (keep_word _) eqn:Ek; [|done].
  assert (good_word (Text.lower (Text.strip p0))) by (split; [done|apply lower_idem]).
  destruct (get _ d); [|by apply good_keys_set].
  destruct (fgt _ _); [by apply good_keys_set|done].
Qed.

Lemma wordfreq_lines_good (lines : list string) : good_keys (wordfreq_lines lines).
Proof.
  unfold wordfreq_lines.
  apply (fold_good wordfreq_step (fun _ => True) (fun st => good_keys (snd st)));
    [|apply Forall_True|constructor].
  intros [hs d] [i line] _ Hd. unfold wordfreq_step.
  destruct (negb hs && _); simpl; [done|]. by apply wordfreq_data_line_good.
Qed.

Lemma csv_lines_good (lines : list string) : good_keys (csv_lines lines).
Proof.
  unfold csv_lines.
  apply (fold_good csv_step (fun _ => True) (fun st => good_keys (snd st)));
    [|apply Forall_True|constructor].
  intros [hs d] line _ Hd. unfold csv_step.
  destruct (negb hs && _); simpl; [done|]. by apply csv_data_line_good.
Qed.

(** Whatever the source, the aggregate holds only words that pass the
    filter and are in lowercase. *)
Lemma gather_good (a : args) (e : env) (t : table) :
  gather a e = Some t → table_good t.
Proof.
  unfold gather. destruct (given_list (ngram a)) as [files|].
  - pose proof (merge_ngram_files_good e files) as Hg.
    destruct (merge_ngram_files e files); [done|]. by intros [= <-].
  - destruct (download_coca a).
    + destruct (fetched e); [|done]. intros [= <-]. apply wordfreq_lines_good.
    + destruct (given (wordfreq a)).
      * intros [= <-]. unfold get_top_words_from_wordfrequency.
        destruct (fs e _); [apply wordfreq_lines_good|constructor].
      * destruct (given (csv a)); [|done].
        intros [= <-]. unfold get_top_words_from_csv.
        destruct (fs e _); [apply csv_lines_good|constructor].
Qed.

(** ** Header lines *)

Lemma wordfreq_step_skipped (items : list (nat * string)) (d : dict Num.float) :
  fold_left wordfreq_step items (true, d) =
  (true, fold_left wordfreq_data_line (map snd items) d).
Proof.
  revert d. induction items as [|[i line] items IH]; intros d; simpl; [done|].
  apply IH.
Qed.

Lemma snd_combine_seq {A : Type} (l : list A) (start : nat) :
  map snd (combine (seq start (length l)) l) = l.
Proof.
  revert start. induction l as [|x l IH]; intros start; simpl; [done|].
  by rewrite IH.
Qed.

(** Once the first line has set [header_skipped], no later line is tested:
    the loop skips the first line of the file and nothing else. *)
Lemma wordfreq_lines_cons (line : string) (lines : list string) :
  wordfreq_lines (line :: lines) = fold_left wordfreq_data_line lines [].
Proof.
  unfold wordfreq_lines, enumerate. simpl.
  rewrite !orb_true_r. simpl.
  by rewrite wordfreq_step_skipped, snd_combine_seq.
Qed.

Lemma csv_step_skipped (lines : list string) (d : dict Num.float) :
  fold_left csv_step lines (true, d) = (true, fold_left csv_data_line lines d).
Proof.
  revert d. induction lines as [|line lines IH]; intros d; simpl; [done|].
  apply IH.
Qed.

Lemma csv_step_no_header (lines : list string) (d : dict Num.float) :
  Forall (fun l => csv_header l = false) lines →
  fold_left csv_step lines (false, d) = (false, fold_left csv_data_line lines d).
Proof.
  revert d. induction lines as [|line lines IH]; intros d Hl; simpl; [done|].
  apply Forall_cons in Hl as [Hh Hl]. unfold csv_header in Hh.
  rewrite Hh. simpl. by apply IH.
Qed.

Lemma wordfreq_lines_after_second (first second : string) (lines : list string) :
  wordfreq_lines (first :: second :: lines) =
  fold_left wordfreq_data_line lines (wordfreq_lines [first; second]).
Proof. by rewrite !wordfreq_lines_cons. Qed.

(** C3, as amended: the lemma-frequency loop always skips the first line
    of a file, whatever it holds, and it tests for a header only until a
    line has been skipped: every line after the second is parsed as data,
    also when it contains "rank" or "lemma". *)
Theorem wordfreq_header_tested_once :
  (∀ (line line' : string) (lines : list string),
     wordfreq_lines (line :: lines) = wordfreq_lines (line' :: lines))
  ∧ (∀ line : string, wordfreq_lines [line] = [])
  ∧ (∀ (first second : string) (lines : list string),
       wordfreq_lines (first :: second :: lines) =
       fold_left wordfreq_data_line lines (wordfreq_lines [first; second])).
Proof.
  split; [|split].
  - intros line line' lines. by rewrite !wordfreq_lines_cons.
  - intros line. by rewrite wordfreq_lines_cons.
  - apply wordfreq_lines_after_second.
Qed.

(** C3 fails as stated: below two header lines, the data line of the lemma
    "rank" contains the word "rank" and is recorded all the same. *)
Lemma wordfreq_header_counterexample :
  get "rank" (wordfreq_lines
                ["COCA lemmas" ++ NL; "rank|lemma|PoS|freq" ++ NL;
                 "1|rank|n.|500" ++ NL])
    = Some (Entry (Num.of_decimal false 500 0) {[ "N" ]})
  ∧ wordfreq_lines
      ["COCA lemmas" ++ NL; "rank|lemma|PoS|freq" ++ NL; "1|rank|n.|500" ++ NL]
    ≠ wordfreq_lines ["COCA lemmas" ++ NL; "rank|lemma|PoS|freq" ++ NL].
Proof. split; by vm_compute. Qed.

(** C10: the CSV loop drops the first line that contains "word" or "freq"
    in any case, wherever it stands and whatever else it holds, and no other
    line; the lines before it and after it are parsed as data. In the
    sample the data line of "sword", second in its file, is dropped and the
    later line of "words" is kept. *)
Theorem csv_header_drops_first_match :
  (∀ (before : list string) (line : string) (after : list string),
     Forall (fun l => csv_header l = false) before →
     csv_header line = true →
     csv_lines (before ++ line :: after) =
     fold_left csv_data_line (before ++ after) [])
  ∧ (∀ lines : list string,
       Forall (fun l => csv_header l = false) lines →
       csv_lines lines = fold_left csv_data_line lines [])
  ∧ map fst (csv_lines ["cat,500" ++ NL; "sword,300" ++ NL; "words,7" ++ NL])
    = ["cat"; "words"].
Proof.
  split; [|split; [|by vm_compute]].
  - intros before line after Hb Hl. unfold csv_lines.
    rewrite !fold_left_app, csv_step_no_header by done. simpl.
    unfold csv_header in Hl. rewrite Hl. simpl.
    by rewrite csv_step_skipped.
  - intros lines Hl. unfold csv_lines. by rewrite csv_step_no_header.
Qed.

Lemma csv_header_drops_first_match_witness :
  csv_lines (["cat,500" ++ NL] ++ ("sword,300" ++ NL) :: ["words,7" ++ NL]) =
  fold_left csv_data_line (["cat,500" ++ NL] ++ ["words,7" ++ NL]) [].
Proof.
  apply (proj1 csv_header_drops_first_match).
  - repeat constructor.
  - reflexivity.
Defined.



(** ** Ranker *)

Section RankFacts.
Context {F : Type} `{Less F}.

Lemma filtered_In (d : dict F) (x : string * entry F) :
  In x (filtered d) ↔
  In x d ∧ (String.length (fst x) ≤ 6)%nat ∧ Text.isalpha (fst x) = true.
Proof.
  unfold filtered. rewrite filter_In, andb_true_iff, Nat.leb_le. tauto.
Qed.

Lemma sorted_words_In (n : Z) (d : dict F) (x : string * entry F) :
  In x (sorted_words n d) → In x (filtered d).
Proof.
  unfold sorted_words. intros Hx%slice_to_In.
  by rewrite <- (sorted_perm (fun item : string * entry F => freq (snd item)) true (filtered d)).
Qed.

Lemma sorted_words_length (n : Z) (d : dict F) :
  (0 ≤ n)%Z → (Z.of_nat (length (sorted_words n d)) ≤ n)%Z.
Proof. apply slice_to_length. Qed.

Lemma sorted_words_descending (ok : F → Prop) (le : F → F → Prop) (n : Z) (d : dict F) :
  (∀ a b, ok a → ok b → less a b = true → le a b) →
  (∀ a b, ok a → ok b → less a b = false → le b a) →
  (∀ a b c, ok a → ok b → ok c → le a b → le b c → le a c) →
  Forall (fun x => ok (freq (snd x))) d →
  StronglySorted (fun x y => le (freq (snd y)) (freq (snd x))) (sorted_words n d).
Proof.
  intros H1 H2 H3 Hd. unfold sorted_words. apply slice_to_sorted.
  apply (sorted_reverse_descending (fun item => freq (snd item)) ok le H1 H2 H3).
  apply Forall_forall. intros x Hx%list_elem_of_In%filtered_In.
  rewrite Forall_forall in Hd. apply Hd, list_elem_of_In. tauto.
Qed.
End RankFacts.

Lemma ranked_length (a : args) (t : table) :
  (0 ≤ top_n a)%Z → (Z.of_nat (length (table_lines (ranked a t))) ≤ top_n a)%Z.
Proof.
  intros Hn. destruct t as [d|d]; simpl; rewrite length_map;
    by apply sorted_words_length.
Qed.

Lemma ranked_descending (a : args) (t : table) :
  no_nan t → descending (ranked a t).
Proof.
  destruct t as [d|d]; simpl; intros Hd.
  - apply (sorted_words_descending (fun _ => True) Z.le).
    + intros x y _ _ Hlt. apply Z.ltb_lt in Hlt. lia.
    + intros x y _ _ Hlt. apply Z.ltb_ge in Hlt. lia.
    + intros x y z _ _ _. lia.
    + by apply Forall_forall.
  - apply (sorted_words_descending (fun f => f ≠ S754_nan)
             (fun x y => SFleb x y = true)); [| | |done].
    + intros x y _ _. apply FloatOrderFacts.ltb_leb.
    + apply FloatOrderFacts.not_ltb_leb.
    + apply FloatOrderFacts.leb_trans.
Qed.

Lemma main_wrote (a : args) (e : env) (dest : option string) (lines : list string) :
  main a e = Wrote dest lines →
  ∃ t, gather a e = Some t ∧ table_words t ≠ [] ∧ dest = given (output a)
       ∧ lines = table_lines (ranked a t).
Proof.
  unfold main. destruct (gather a e) as [t|]; [|done].
  destruct (table_words t) eqn:E; [done|].
  intros [= <- <-]. exists t. by rewrite E.
Qed.

(** C6, as amended: the lines of a run are the formatted entries of the
    ranking; when the requested top-N is not negative there are at most
    top-N of them, and when no frequency is a NaN every entry's frequency is
    at least that of every later entry. *)
Theorem ranking_bounded_and_descending (a : args) (e : env)
    (dest : option string) (lines : list string) :
  main a e = Wrote dest lines →
  ∃ t, gather a e = Some t ∧ lines = table_lines (ranked a t)
       ∧ ((0 ≤ top_n a)%Z → (Z.of_nat (length lines) ≤ top_n a)%Z)
       ∧ (no_nan t → descending (ranked a t)).
Proof.
  intros (t & Hg & _ & _ & ->)%main_wrote. exists t.
  split; [done|]. split; [done|]. split.
  - apply ranked_length.
  - apply ranked_descending.
Qed.

Lemma ranking_bounded_and_descending_witness :
  ∃ t, gather (Args 1 None None (Some "words.csv") None false)
              (one_file "words.csv" ("cat,500" ++ NL ++ "apple,300" ++ NL)) = Some t
       ∧ ["cat" ++ NL] = table_lines (ranked (Args 1 None None (Some "words.csv") None false) t)
       ∧ ((0 ≤ 1)%Z → (Z.of_nat (length ["cat" ++ NL]) ≤ 1)%Z)
       ∧ (no_nan t →
          descending (ranked (Args 1 None None (Some "words.csv") None false) t)).
Proof.
  apply (ranking_bounded_and_descending
           (Args 1 None None (Some "words.csv") None false)
           (one_file "words.csv" ("cat,500" ++ NL ++ "apple,300" ++ NL))
           None ["cat" ++ NL]).
  reflexivity.
Defined.

(** C6 fails as stated: with top-N = -1 the slice drops the last entry only,
    so a run over three words writes two lines, more than the requested
    top-N; and a NaN frequency, which [float] reads from the text "nan",
    is followed in the output by a frequency it is not at least. *)
Lemma ranking_counterexample :
  (∃ dest lines,
     main (Args (-1) None None (Some "words.csv") None false)
          (one_file "words.csv"
             ("cat,500" ++ NL ++ "apple,300" ++ NL ++ "dog,100" ++ NL))
       = Wrote dest lines
     ∧ ¬ (Z.of_nat (length lines) ≤ -1)%Z)
  ∧ (∃ t,
       gather (Args 5 None None (Some "words.csv") None false)
              (one_file "words.csv" ("cat,nan" ++ NL ++ "dog,1" ++ NL)) = Some t
       ∧ ¬ descending (ranked (Args 5 None None (Some "words.csv") None false) t)).
Proof.
  split.
  - eexists _, _. split; [reflexivity|]. simpl. lia.
  - eexists. split; [reflexivity|]. simpl.
    intros Hs. apply StronglySorted_cons in Hs as [Hs _].
    apply Forall_cons in Hs as [Hs _]. discriminate Hs.
Qed.

(** ** What is written, and when *)

Lemma filtered_good {F : Type} (d : dict F) : good_keys d → filtered d = d.
Proof.
  unfold good_keys, filtered. induction d as [|x d IH]; simpl; [done|].
  intros [[Hk _] Hd]%Forall_cons. apply keep_word_spec in Hk as [Hl Ha].
  apply Nat.leb_le in Hl. rewrite Hl, Ha. simpl. by rewrite IH.
Qed.

Lemma survivors_good (t : table) : table_good t → survivors t = table_words t.
Proof. destruct t as [d|d]; simpl; intros Hd; by rewrite filtered_good. Qed.





(** C9: when no word of the aggregate passes the ranker's filter, or the
    selected source gave up on its own, the run ends with exit status 1 and
    writes nothing; a run that writes has a word that passes the filter. *)
Theorem empty_result_aborts (a : args) (e : env) :
  ((∀ t, gather a e = Some t → survivors t = []) → main a e = Exit1)
  ∧ (∀ dest lines,
       main a e = Wrote dest lines →
       ∃ t, gather a e = Some t ∧ survivors t ≠ []).
Proof.
  split.
  - intros Hs. unfold main. destruct (gather a e) as [t|] eqn:Hg; [|done].
    specialize (Hs t eq_refl). rewrite survivors_good in Hs by by eapply gather_good.
    by rewrite Hs.
  - intros dest lines (t & Hg & Hne & _)%main_wrote. exists t. split; [done|].
    by rewrite survivors_good by by eapply gather_good.
Qed.

Lemma empty_result_aborts_witness :
  main (Args 10 (Some "out.txt") None (Some "words.csv") None false)
       (one_file "words.csv" ("word,freq" ++ NL ++ "elephant,12" ++ NL ++ "it's,40" ++ NL))
  = Exit1.
Proof.
  apply (proj1 (empty_result_aborts
                  (Args 10 (Some "out.txt") None (Some "words.csv") None false)
                  (one_file "words.csv"
                     ("word,freq" ++ NL ++ "elephant,12" ++ NL ++ "it's,40" ++ NL)))).
  intros t Ht. vm_compute in Ht. injection Ht as <-. reflexivity.
Defined.

(** C2 fails as stated: [float] reads the text "nan", and the comparison
    [freq > recorded] is false whenever one side is a NaN. A recorded NaN is
    kept against the new frequency 10.0, which it is not at least, and a
    recorded 10.0 is kept against a new NaN: the frequency kept depends on
    the order of the lines, and is not the larger of the two. *)
Lemma duplicates_counterexample :
  get "run" (csv_lines ["run,nan" ++ NL; "run,10.0" ++ NL])
  = Some (Entry S754_nan ∅)
  ∧ get "run" (csv_lines ["run,10.0" ++ NL; "run,nan" ++ NL])
    = Some (Entry (Num.of_decimal false 10 0) ∅)
  ∧ get "run" (wordfreq_lines
                 ["rank|lemma|PoS|freq" ++ NL; "1|run|v.|nan" ++ NL;
                  "2|run|n.|10.0" ++ NL])
    = Some (Entry S754_nan {[ "N"; "V" ]})
  ∧ SFleb (Num.of_decimal false 10 0) S754_nan = false
  ∧ ¬ larger_of S754_nan (Num.of_decimal false 10 0) S754_nan.
Proof.
  split; [by vm_compute|]. split; [by vm_compute|]. split; [by vm_compute|].
  split; [done|]. by intros (_ & Hle & _).
Qed.

(** ** End to end *)






(** C8 fails as stated: a file that holds the data line alone has it skipped
    as the header and the run ends with exit status 1; below a header, a
    second line of "the" adds its tag to the output line; and a top-N of 0
    leaves no line at all. *)
Lemma lemma_line_counterexample :
  main (Args 1000 None None None (Some "lemmas.txt") false)
       (one_file "lemmas.txt" ("1|the|def. art.|22038615" ++ NL))
  = Exit1
  ∧ main (Args 1000 None None None (Some "lemmas.txt") false)
         (one_file "lemmas.txt"
            ("rank|lemma|PoS|freq" ++ NL ++ "1|the|def. art.|22038615" ++ NL ++
             "512|the|adv.|100" ++ NL))
    = Wrote None ["the|Adv,Det" ++ NL]
  ∧ main (Args 0 None None None (Some "lemmas.txt") false)
         (one_file "lemmas.txt"
            ("rank|lemma|PoS|freq" ++ NL ++ "1|the|def. art.|22038615" ++ NL))
    = Wrote None [].
Proof. split; [|split]; by vm_compute. Qed.

(** ** POS normaliser *)

Lemma normalize_pos_unfold (s : string) :
  normalize_pos s =
  if negb (Text.nonempty s) then ∅
  else run_markers (Text.lower (Text.strip s)) markers ∅.
Proof. reflexivity. Qed.

Lemma elem_of_run_markers (s t : string) (ms : list ((string → bool) * string))
    (acc : pos_set) :
  t ∈ run_markers s ms acc
  ↔ t ∈ acc ∨ ∃ test, In (test, t) ms ∧ test s = true.
Proof.
  unfold run_markers.
  revert acc. induction ms as [|[test tag] ms IH]; intros acc; simpl.
  - split; [by left|]. intros [?|(? & [] & _)]. done.
  - rewrite IH. split.
    + intros [Hin|(test' & Hin & Ht)].
      * destruct (test s) eqn:E; [|by left].
        unfold add in Hin. apply elem_of_union in Hin as [Hin|Hin]; [|by left].
        apply elem_of_singleton in Hin as ->. right. exists test. split; [by left|done].
      * right. exists test'. split; [by right|done].
    + intros [Hin|(test' & [[= -> ->]|Hin] & Ht)].
      * left. destruct (test s); [|done]. unfold add. set_solver.
      * left. rewrite Ht. unfold add. set_solver.
      * right. by exists test'.
Qed.

(** A tag is produced exactly when its test fires on the stripped,
    lowercased text of a non-empty input. *)
Lemma elem_of_normalize_pos (s t : string) :
  t ∈ normalize_pos s ↔
  s ≠ "" ∧ ∃ test, In (test, t) markers ∧ test (Text.lower (Text.strip s)) = true.
Proof.
  rewrite normalize_pos_unfold. destruct s as [|c s]; simpl Text.nonempty; cbv iota.
  - split; [set_solver|]. by intros [? _].
  - simpl negb. cbv iota. rewrite elem_of_run_markers. split.
    + intros [?|?]; [set_solver|]. done.
    + intros [_ ?]. by right.
Qed.

(** C5: [normalize_pos] is total, every tag it returns belongs to the fixed
    eight-tag vocabulary, text on which no test fires yields the empty set,
    and the three sample notations give [{N, V}], [{Adj}] and the empty
    set. *)
Theorem normalize_pos_vocabulary :
  (∀ s : string, normalize_pos s ⊆ vocabulary)
  ∧ (∀ s : string,
       Forall (fun m => fst m (Text.lower (Text.strip s)) = false) markers →
       normalize_pos s = ∅)
  ∧ normalize_pos "n., v." = {[ "N"; "V" ]}
  ∧ normalize_pos "adj." = {[ "Adj" ]}
  ∧ normalize_pos "xyz." = ∅.
Proof.
  split; [|split; [|by vm_compute]].
  - intros s t Ht. apply elem_of_normalize_pos in Ht as (_ & test & Hin & _).
    unfold markers in Hin. simpl in Hin. unfold vocabulary.
    repeat destruct Hin as [[= _ <-]|Hin]; set_solver.
  - intros s Hno. apply leibniz_equiv. apply elem_of_equiv_empty. intros t Ht.
    apply elem_of_normalize_pos in Ht as (_ & test & Hin & Ht).
    rewrite Forall_forall in Hno. apply list_elem_of_In, Hno in Hin.
    simpl in Hin. congruence.
Qed.

Lemma normalize_pos_vocabulary_witness :
  normalize_pos "interj." = ∅.
Proof.
  apply (proj1 (proj2 normalize_pos_vocabulary) "interj.").
  repeat constructor.
Defined.

(** * Further properties *)

(** ** The ranker keeps the largest, in the order of the aggregate *)

Section RankMore.
Context {F : Type} `{Less F}.

Lemma sorted_words_split (n : Z) (d : dict F) :
  ∃ rest, sorted (fun item : string * entry F => freq (snd item)) true (filtered d)
          = (sorted_words n d ++ rest)%list.
Proof. apply slice_to_prefix. Qed.

Lemma sorted_words_keeps_largest (ok : F → Prop) (le : F → F → Prop)
    (n : Z) (d : dict F) :
  (∀ a b, ok a → ok b → less a b = true → le a b) →
  (∀ a b, ok a → ok b → less a b = false → le b a) →
  (∀ a b c, ok a → ok b → ok c → le a b → le b c → le a c) →
  Forall (fun x => ok (freq (snd x))) d →
  keeps_largest le (sorted_words n d) (filtered d).
Proof.
  intros H1 H2 H3 Hd. destruct (sorted_words_split n d) as [rest Hs].
  exists rest. split.
  - rewrite <- Hs. symmetry. apply sorted_perm.
  - assert (StronglySorted (fun x y => le (freq (snd y)) (freq (snd x)))
              (sorted (fun item : string * entry F => freq (snd item)) true
                 (filtered d))) as Hsorted.
    { apply (sorted_reverse_descending (fun item => freq (snd item)) ok le H1 H2 H3).
      apply Forall_forall. intros x Hx%list_elem_of_In%filtered_In.
      rewrite Forall_forall in Hd. apply Hd, list_elem_of_In. tauto. }
    rewrite Hs in Hsorted. intros x y Hx Hy.
    apply (StronglySorted_app_1_elem_of _ _ _ x y Hsorted); by apply list_elem_of_In.
Qed.



End RankMore.

Lemma slice_to_count {A : Type} (n : Z) (l : list A) :
  Z.of_nat (length (slice_to n l)) = slice_count n (Z.of_nat (length l)).
Proof.
  unfold slice_to, slice_count. destruct (0 <=? n)%Z eqn:E; rewrite length_firstn.
  - apply Z.leb_le in E. lia.
  - apply Z.leb_gt in E. lia.
Qed.

Lemma sorted_words_count {F : Type} `{Less F} (n : Z) (d : dict F) :
  good_keys d →
  Z.of_nat (length (sorted_words n d)) = slice_count n (Z.of_nat (length d)).
Proof.
  intros Hd. unfold sorted_words. rewrite slice_to_count, filtered_good by done.
  by rewrite (Permutation_length
                (sorted_perm (fun item : string * entry F => freq (snd item)) true d)).
Qed.

(** X1: whatever top-N is asked for, the entries a run ranks are the largest
    of its aggregate: when no frequency is a NaN, every ranked entry has a
    frequency at least that of every entry left out. *)
Theorem ranked_entries_are_largest (a : args) (e : env) (t : table) :
  gather a e = Some t → no_nan t → ranked_largest a t.
Proof.
  intros Hg%gather_good Hn. destruct t as [d|d]; simpl in *.
  - rewrite <- (filtered_good d Hg) at 2.
    apply (sorted_words_keeps_largest (fun _ => True) Z.le).
    + intros x y _ _ Hlt. apply Z.ltb_lt in Hlt. lia.
    + intros x y _ _ Hlt. apply Z.ltb_ge in Hlt. lia.
    + intros x y z _ _ _. lia.
    + apply Forall_True.
  - rewrite <- (filtered_good d Hg) at 2.
    apply (sorted_words_keeps_largest (fun f => f ≠ S754_nan)
             (fun x y => SFleb x y = true)); [| | |done].
    + intros x y _ _. apply FloatOrderFacts.ltb_leb.
    + apply FloatOrderFacts.not_ltb_leb.
    + apply FloatOrderFacts.leb_trans.
Qed.

Lemma ranked_entries_are_largest_witness :
  ranked_largest (Args 1 None None (Some "words.csv") None false)
    (Scores (get_top_words_from_csv
               (one_file "words.csv" ("apple,300" ++ NL ++ "cat,500" ++ NL))
               "words.csv")).
Proof.
  apply (ranked_entries_are_largest _
           (one_file "words.csv" ("apple,300" ++ NL ++ "cat,500" ++ NL))).
  - reflexivity.
  - vm_compute. repeat constructor; discriminate.
Defined.

(** X2: a run that writes, writes as many lines as the slice [[:top_n]] keeps
    of the words of its aggregate: the smaller of top-N and the number of
    words when top-N is not negative, and the number of words less [-top_n]
    (or none) when it is negative. *)
Theorem output_line_count (a : args) (e : env) (dest : option string)
    (lines : list string) :
  main a e = Wrote dest lines →
  ∃ t, gather a e = Some t
       ∧ Z.of_nat (length lines)
         = slice_count (top_n a) (Z.of_nat (length (table_words t))).
Proof.
  intros (t & Hg & _ & _ & ->)%main_wrote. exists t. split; [done|].
  apply gather_good in Hg.
  destruct t as [d|d]; simpl in *; rewrite !length_map; by apply sorted_words_count.
Qed.

Lemma output_line_count_witness :
  ∃ t, gather (Args (-1) None None (Some "words.csv") None false)
              (one_file "words.csv"
                 ("cat,500" ++ NL ++ "apple,300" ++ NL ++ "dog,100" ++ NL)) = Some t
       ∧ Z.of_nat (length ["cat" ++ NL; "apple" ++ NL])
         = slice_count (-1) (Z.of_nat (length (table_words t))).
Proof.
  apply (output_line_count (Args (-1) None None (Some "words.csv") None false)
           (one_file "words.csv"
              ("cat,500" ++ NL ++ "apple,300" ++ NL ++ "dog,100" ++ NL)) None).
  reflexivity.
Defined.

Lemma slice_to_shorter {A : Type} (n m : Z) (l : list A) :
  (0 ≤ n ≤ m)%Z → slice_to n l = firstn (Z.to_nat n) (slice_to m l).
Proof.
  intros Hnm. unfold slice_to.
  destruct (0 <=? n)%Z eqn:En; [|apply Z.leb_gt in En; lia].
  destruct (0 <=? m)%Z eqn:Em; [|apply Z.leb_gt in Em; lia].
  rewrite firstn_firstn. f_equal. lia.
Qed.

(** X3: a shorter list is the head of a longer one. If a run asked for the
    top [m] writes some lines, the same run asked for the top [n], with
    [0 <= n <= m], writes the first [n] of those lines, to the file named
    by its output argument or, when that is absent or empty, to the
    standard output. *)
Theorem shorter_ranking_is_prefix (n m : Z) (dest dest' target : option string)
    (ngram' : option (list string)) (csv' wordfreq' : option string) (coca : bool)
    (e : env) (lines : list string) :
  (0 ≤ n ≤ m)%Z →
  main (Args m dest' ngram' csv' wordfreq' coca) e = Wrote target lines →
  main (Args n dest ngram' csv' wordfreq' coca) e
  = Wrote (given dest) (firstn (Z.to_nat n) lines).
Proof.
  intros Hnm (t & Hg & Hne & _ & ->)%main_wrote.
  unfold main.
  change (gather (Args n dest ngram' csv' wordfreq' coca) e)
    with (gather (Args m dest' ngram' csv' wordfreq' coca) e).
  rewrite Hg. destruct (table_words t) eqn:Et; [done|]. f_equal.
  destruct t as [d|d]; simpl; unfold sorted_words;
    rewrite (slice_to_shorter n m) by done; by rewrite firstn_map.
Qed.

Lemma shorter_ranking_is_prefix_witness :
  main (Args 1 None None (Some "words.csv") None false)
       (one_file "words.csv"
          ("cat,500" ++ NL ++ "apple,300" ++ NL ++ "dog,100" ++ NL))
  = Wrote (given None) (firstn (Z.to_nat 1) ["cat" ++ NL; "apple" ++ NL]).
Proof.
  apply (shorter_ranking_is_prefix 1 2 None None None None (Some "words.csv") None
           false).
  - lia.
  - reflexivity.
Defined.



(** ** What the lines look like *)

Lemma normalize_pos_subset (s : string) : normalize_pos s ⊆ vocabulary.
Proof.
  intros t Ht. apply elem_of_normalize_pos in Ht as (_ & test & Hin & _).
  unfold markers in Hin. simpl in Hin. unfold vocabulary.
  repeat destruct Hin as [[= _ <-]|Hin]; set_solver.
Qed.

Lemma all_pos_set {F : Type} (P : pos_set → Prop) (k : string) (v : entry F)
    (d : dict F) :
  P (pos v) → all_pos P d → all_pos P (set k v d).
Proof.
  unfold all_pos. rewrite !Forall_forall. intros Hv Hd x Hx%list_elem_of_In%In_set.
  destruct Hx as [->|Hx]; [done|]. by apply Hd, list_elem_of_In.
Qed.

Lemma all_pos_get {F : Type} (P : pos_set → Prop) (k : string) (e : entry F)
    (d : dict F) :
  all_pos P d → get k d = Some e → P (pos e).
Proof.
  unfold all_pos. rewrite Forall_forall. intros Hd Hk%get_Some_In.
  by apply (Hd (k, e)), list_elem_of_In.
Qed.

Lemma bump_vocabulary (w : string) (c : Z) (p : pos_set) (d : dict Z) :
  in_vocabulary p → all_pos in_vocabulary d → all_pos in_vocabulary (bump w c p d).
Proof.
  intros Hp Hd. unfold bump. rewrite modify_setdefault.
  apply all_pos_set; [|done]. simpl.
  destruct (get w d) as [e|] eqn:E; simpl.
  - pose proof (all_pos_get _ _ _ _ Hd E) as He. unfold in_vocabulary in *. set_solver.
  - unfold in_vocabulary in *. set_solver.
Qed.

Lemma parse_ngram_line_vocabulary (line : string) :
  in_vocabulary (snd (parse_ngram_line line)).
Proof.
  unfold parse_ngram_line, in_vocabulary.
  destruct (Text.split TAB (Text.strip line)) as [|p0 [|p1 [|p2 ps]]];
    try (simpl; set_solver).
  destruct (Text.has_chr "_" (Text.lower p0)).
  - destruct (Text.split_once "_" (Text.lower p0)) as [wp pp].
    destruct (Num.py_int p2); simpl; [apply normalize_pos_subset|set_solver].
  - destruct (Num.py_int p2); simpl; set_solver.
Qed.

Lemma parse_wordfrequency_line_vocabulary (line : string) :
  in_vocabulary (snd (parse_wordfrequency_line line)).
Proof.
  unfold parse_wordfrequency_line, in_vocabulary. generalize [TAB; "|"%char; ","%char].
  intros seps. induction seps as [|sep seps IH]; simpl; [set_solver|].
  destruct (parse_with_sep sep line) as [[[w f] p]|] eqn:E; [|done]. simpl.
  unfold parse_with_sep in E. destruct (Text.has_chr sep line); [|done].
  destruct (Text.split sep (Text.strip line)) as [|p0 [|p1 [|p2 [|p3 ps]]]]; try done.
  destruct (Num.py_int p0); [|done].
  destruct (Text.has_chr "_" (Text.lower (Text.strip p1))).
  - destruct (Text.split_once "_" (Text.lower (Text.strip p1))) as [wp pp].
    destruct (first_float _); [|done]. destruct (Text.nonempty wp); [|done].
    injection E as _ _ <-. apply normalize_pos_subset.
  - destruct (first_float _); [|done]. destruct (Text.nonempty _); [|done].
    injection E as _ _ <-. apply normalize_pos_subset.
Qed.

Lemma ngram_step_vocabulary (d : dict Z) (line : string) :
  all_pos in_vocabulary d → all_pos in_vocabulary (ngram_step d line).
Proof.
  intros Hd. rewrite ngram_step_bump.
  pose proof (parse_ngram_line_vocabulary line) as Hp.
  destruct (parse_ngram_line line) as [[[w|] c] p]; [|done].
  destruct (keep_word w); [|done]. by apply bump_vocabulary.
Qed.

Lemma process_ngram_file_vocabulary (e : env) (file : string) :
  all_pos in_vocabulary (process_ngram_file e file).
Proof.
  unfold process_ngram_file. destruct (fs e file); [|constructor].
  apply (fold_good ngram_step (fun _ => True) (all_pos in_vocabulary)).
  - intros d line _. apply ngram_step_vocabulary.
  - apply Forall_True.
  - constructor.
Qed.

Lemma merge_ngram_files_vocabulary (e : env) (files : list string) :
  all_pos in_vocabulary (merge_ngram_files e files).
Proof.
  apply (fold_good (ngram_files_step e) (fun _ => True) (all_pos in_vocabulary));
    [|apply Forall_True|constructor].
  intros d file _ Hd. unfold ngram_files_step.
  destruct (path_exists e file); simpl; [|done].
  apply (fold_good merge_entry (fun item => in_vocabulary (pos (snd item)))
           (all_pos in_vocabulary)); [|apply process_ngram_file_vocabulary|done].
  intros d' [w data] Hi Hd'. by apply bump_vocabulary.
Qed.

Lemma wordfreq_data_line_vocabulary (d : dict Num.float) (line : string) :
  all_pos in_vocabulary d → all_pos in_vocabulary (wordfreq_data_line d line).
Proof.
  intros Hd. unfold wordfreq_data_line.
  pose proof (parse_wordfrequency_line_vocabulary line) as Hp.
  destruct (parse_wordfrequency_line line) as [[[w|] [f|]] p]; try done.
  destruct (keep_word w); [|done]. simpl in Hp.
  destruct (get w d) as [e|] eqn:E; apply all_pos_set; try done. simpl.
  pose proof (all_pos_get _ _ _ _ Hd E) as He. unfold in_vocabulary in *. set_solver.
Qed.

Lemma wordfreq_lines_vocabulary (lines : list string) :
  all_pos in_vocabulary (wordfreq_lines lines).
Proof.
  unfold wordfreq_lines.
  apply (fold_good wordfreq_step (fun _ => True)
           (fun st => all_pos in_vocabulary (snd st)));
    [|apply Forall_True|constructor].
  intros [hs d] [i line] _ Hd. unfold wordfreq_step.
  destruct (negb hs && _); simpl; [done|]. by apply wordfreq_data_line_vocabulary.
Qed.

(** The CSV adapter never records a tag. *)
Lemma csv_data_line_no_pos (d : dict Num.float) (line : string) :
  all_pos (fun s => s = ∅) d → all_pos (fun s => s = ∅) (csv_data_line d line).
Proof.
  intros Hd. unfold csv_data_line.
  destruct (Text.split "," (Text.strip line)) as [|p0 [|p1 ps]]; try done.
  destruct (Num.py_float (Text.strip p1)); [|done]. simpl.
  destruct (keep_word _); [|done].
  destruct (get _ d) as [e|] eqn:E; [|by apply all_pos_set].
  destruct (fgt _ _); [|done]. apply all_pos_set; [|done]. simpl.
  by apply (all_pos_get _ _ _ _ Hd E).
Qed.

Lemma csv_lines_no_pos (lines : list string) :
  all_pos (fun s => s = ∅) (csv_lines lines).
Proof.
  unfold csv_lines.
  apply (fold_good csv_step (fun _ => True) (fun st => all_pos (fun s => s = ∅) (snd st)));
    [|apply Forall_True|constructor].
  intros [hs d] line _ Hd. unfold csv_step.
  destruct (negb hs && _); simpl; [done|]. by apply csv_data_line_no_pos.
Qed.

Lemma all_pos_weaken {F : Type} (P Q : pos_set → Prop) (d : dict F) :
  (∀ s, P s → Q s) → all_pos P d → all_pos Q d.
Proof.
  unfold all_pos. intros HPQ Hd. eapply Forall_impl; [exact Hd|].
  intros x. apply HPQ.
Qed.

Lemma gather_vocabulary (a : args) (e : env) (t : table) :
  gather a e = Some t → table_pos in_vocabulary t.
Proof.
  assert (∀ lines, all_pos in_vocabulary (csv_lines lines)) as Hcsv.
  { intros lines. apply (all_pos_weaken (fun s => s = ∅)); [|apply csv_lines_no_pos].
    intros s ->. unfold in_vocabulary. set_solver. }
  unfold gather. destruct (given_list (ngram a)) as [files|].
  - pose proof (merge_ngram_files_vocabulary e files) as Hg.
    destruct (merge_ngram_files e files); [done|]. by intros [= <-].
  - destruct (download_coca a).
    + destruct (fetched e); [|done]. intros [= <-]. apply wordfreq_lines_vocabulary.
    + destruct (given (wordfreq a)).
      * intros [= <-]. unfold get_top_words_from_wordfrequency.
        destruct (fs e _); [apply wordfreq_lines_vocabulary|constructor].
      * destruct (given (csv a)); [|done].
        intros [= <-]. unfold get_top_words_from_csv.
        destruct (fs e _); [apply Hcsv|constructor].
Qed.

Lemma str_ltb_le (a b : string) : String.ltb a b = true → String.le a b.
Proof.
  unfold String.ltb, String.le, String.leb. by destruct (String.compare a b).
Qed.

Lemma str_not_ltb_le (a b : string) : String.ltb a b = false → String.le b a.
Proof.
  unfold String.ltb, String.le, String.leb. rewrite (String.compare_antisym b a).
  by destruct (String.compare a b).
Qed.

Lemma str_le_ne_ltb (a b : string) : String.le a b → a ≠ b → String.ltb a b = true.
Proof.
  unfold String.ltb, String.le, String.leb.
  destruct (String.compare a b) eqn:E; try done.
  apply String.compare_eq_iff in E. congruence.
Qed.

Lemma StronglySorted_strict (l : list string) :
  StronglySorted String.le l → List.NoDup l →
  StronglySorted (fun a b => String.ltb a b = true) l.
Proof.
  intros Hs. induction Hs as [|x l Hl IH Hx]; [constructor|].
  intros [Hnx Hnd]%List.NoDup_cons_iff. constructor; [by apply IH|].
  rewrite Forall_forall in Hx. apply Forall_forall. intros y Hy.
  apply str_le_ne_ltb; [by apply Hx|].
  intros ->. by apply Hnx, list_elem_of_In.
Qed.

(** The tags of a set as [sorted] lists them: in strictly ascending order,
    and exactly the members of the set. *)
Lemma sorted_tags (tags : pos_set) :
  StronglySorted (fun a b => String.ltb a b = true)
    (sorted (fun t : string => t) false (elements tags))
  ∧ ∀ t, In t (sorted (fun t : string => t) false (elements tags)) ↔ t ∈ tags.
Proof.
  pose proof (sorted_perm (fun t : string => t) false (elements tags)) as Hperm.
  split.
  - apply StronglySorted_strict.
    + apply (sort_ascending_sorted (fun t : string => t) (fun _ => True) String.le).
      * intros a b _ _. apply str_ltb_le.
      * intros a b _ _. apply str_not_ltb_le.
      * intros a b c _ _ _ Hab Hbc. by etrans.
      * apply Forall_True.
    + apply NoDup_ListNoDup. rewrite Hperm. apply NoDup_elements.
  - intros t. rewrite <- list_elem_of_In, Hperm. apply elem_of_elements.
Qed.

Lemma format_line_suffix {F : Type} (w : string) (data : entry F) :
  format_line (w, data)
  = w ++ tags_suffix (sorted (fun t : string => t) false (elements (pos data))).
Proof.
  unfold format_line, tags_suffix.
  by destruct (sorted _ false (elements (pos data))).
Qed.

Lemma ranked_lines_entries (P : pos_set → Prop) (a : args) (t : table) (line : string) :
  table_good t → table_pos P t → In line (table_lines (ranked a t)) →
  ∃ (w : string) (tags : pos_set),
    line = w ++ tags_suffix (sorted (fun t : string => t) false (elements tags))
    ∧ Text.isalpha w = true ∧ P tags.
Proof.
  assert (∀ (F : Type) (L : Less F) (d : dict F),
            good_keys d → all_pos P d →
            In line (map format_line (sorted_words (top_n a) d)) →
            ∃ (w : string) (tags : pos_set),
              line = w ++ tags_suffix
                            (sorted (fun t : string => t) false (elements tags))
              ∧ Text.isalpha w = true ∧ P tags) as Hgen.
  { intros F L d Hd Hp ([w data] & <- & Hin)%in_map_iff.
    apply sorted_words_In, filtered_In in Hin as (Hin & _ & Ha).
    exists w, (pos data). split; [apply format_line_suffix|]. split; [done|].
    unfold all_pos in Hp. rewrite Forall_forall in Hp.
    by apply (Hp (w, data)), list_elem_of_In. }
  intros Hg Hp Hl. destruct t as [d|d]; exact (Hgen _ _ d Hg Hp Hl).
Qed.

(** X5: on every line a run writes, the word is followed either by the end
    of the line or by a bar and a comma-separated list of tags, and that list
    is in strictly ascending order (so no tag is repeated) and holds only
    tags of the fixed eight-tag vocabulary. *)
Theorem written_tags_ascending_in_vocabulary (a : args) (e : env)
    (dest : option string) (lines : list string) :
  main a e = Wrote dest lines →
  Forall (fun line =>
            ∃ (w : string) (tags : list string),
              line = w ++ tags_suffix tags
              ∧ Text.isalpha w = true
              ∧ StronglySorted (fun s t => String.ltb s t = true) tags
              ∧ Forall (fun t => t ∈ vocabulary) tags) lines.
Proof.
  intros (t & Hg & _ & _ & ->)%main_wrote.
  apply Forall_forall. intros line Hline%list_elem_of_In.
  destruct (ranked_lines_entries in_vocabulary a t line) as (w & tags & -> & Hw & Ht);
    [by eapply gather_good|by eapply gather_vocabulary|done|].
  destruct (sorted_tags tags) as [Hs Hin].
  exists w, (sorted (fun t : string => t) false (elements tags)).
  split; [done|]. split; [done|]. split; [done|].
  apply Forall_forall. intros x Hx%list_elem_of_In%Hin. by apply Ht.
Qed.

Lemma written_tags_ascending_in_vocabulary_witness :
  Forall (fun line =>
            ∃ (w : string) (tags : list string),
              line = w ++ tags_suffix tags
              ∧ Text.isalpha w = true
              ∧ StronglySorted (fun s t => String.ltb s t = true) tags
              ∧ Forall (fun t => t ∈ vocabulary) tags)
    ["run|N,V" ++ NL].
Proof.
  apply (written_tags_ascending_in_vocabulary
           (Args 10 None None None (Some "lemmas.txt") false)
           (one_file "lemmas.txt"
              ("rank|lemma|PoS|freq" ++ NL ++ "1|run|v., n.|10.0" ++ NL))
           None).
  reflexivity.
Defined.

(** X6: a run on a CSV file writes bare words: no line carries a bar or a
    tag, whatever the file holds. *)
Theorem csv_run_writes_bare_words (a : args) (e : env) (dest : option string)
    (lines : list string) :
  given_list (ngram a) = None →
  download_coca a = false →
  given (wordfreq a) = None →
  main a e = Wrote dest lines →
  Forall (fun line => ∃ w, line = w ++ NL ∧ Text.isalpha w = true) lines.
Proof.
  intros Hn Hd Hw (t & Hg & _ & _ & ->)%main_wrote.
  assert (table_pos (fun s => s = ∅) t) as Hp.
  { unfold gather in Hg. rewrite Hn, Hd, Hw in Hg.
    destruct (given (csv a)); [|done]. injection Hg as <-.
    unfold get_top_words_from_csv. simpl.
    destruct (fs e _); [apply csv_lines_no_pos|constructor]. }
  apply Forall_forall. intros line Hline%list_elem_of_In.
  destruct (ranked_lines_entries (fun s => s = ∅) a t line)
    as (w & tags & -> & Hal & ->); [by eapply gather_good|done|done|].
  exists w. split; [|done]. by rewrite elements_empty.
Qed.

Lemma csv_run_writes_bare_words_witness :
  Forall (fun line => ∃ w, line = w ++ NL ∧ Text.isalpha w = true)
    ["cat" ++ NL; "apple" ++ NL].
Proof.
  apply (csv_run_writes_bare_words
           (Args 10 None None (Some "words.csv") None false)
           (one_file "words.csv" ("cat,500" ++ NL ++ "apple,300" ++ NL)) None);
    reflexivity.
Defined.

(** ** No word twice *)

Lemma NoDup_keys_merge_entry (d : dict Z) (item : string * entry Z) :
  List.NoDup (map fst d) → List.NoDup (map fst (merge_entry d item)).
Proof. destruct item as [w data]. apply NoDup_keys_bump. Qed.

Lemma NoDup_keys_merge_ngram_files (e : env) (files : list string) :
  List.NoDup (map fst (merge_ngram_files e files)).
Proof.
  apply (fold_good (ngram_files_step e) (fun _ => True)
           (fun d => List.NoDup (map fst d))); [|apply Forall_True|constructor].
  intros d file _ Hd. unfold ngram_files_step.
  destruct (path_exists e file); simpl; [|done].
  apply (fold_good merge_entry (fun _ => True) (fun d => List.NoDup (map fst d)));
    [|apply Forall_True|done].
  intros d' item _. apply NoDup_keys_merge_entry.
Qed.

Lemma NoDup_keys_wordfreq_data_line (d : dict Num.float) (line : string) :
  List.NoDup (map fst d) → List.NoDup (map fst (wordfreq_data_line d line)).
Proof.
  intros Hd. unfold wordfreq_data_line.
  destruct (parse_wordfrequency_line line) as [[[w|] [f|]] p]; try done.
  destruct (keep_word w); [|done].
  destruct (get w d); by apply NoDup_keys_set.
Qed.

Lemma NoDup_keys_csv_data_line (d : dict Num.float) (line : string) :
  List.NoDup (map fst d) → List.NoDup (map fst (csv_data_line d line)).
Proof.
  intros Hd. unfold csv_data_line.
  destruct (Text.split "," (Text.strip line)) as [|p0 [|p1 ps]]; try done.
  destruct (Num.py_float (Text.strip p1)); [|done]. simpl.
  destruct (keep_word _); [|done].
  destruct (get _ d); [|by apply NoDup_keys_set].
  destruct (fgt _ _); [by apply NoDup_keys_set|done].
Qed.

Lemma NoDup_keys_wordfreq_lines (lines : list string) :
  List.NoDup (map fst (wordfreq_lines lines)).
Proof.
  unfold wordfreq_lines.
  apply (fold_good wordfreq_step (fun _ => True)
           (fun st => List.NoDup (map fst (snd st))));
    [|apply Forall_True|constructor].
  intros [hs d] [i line] _ Hd. unfold wordfreq_step.
  destruct (negb hs && _); simpl; [done|]. by apply NoDup_keys_wordfreq_data_line.
Qed.

Lemma NoDup_keys_csv_lines (lines : list string) :
  List.NoDup (map fst (csv_lines lines)).
Proof.
  unfold csv_lines.
  apply (fold_good csv_step (fun _ => True) (fun st => List.NoDup (map fst (snd st))));
    [|apply Forall_True|constructor].
  intros [hs d] line _ Hd. unfold csv_step.
  destruct (negb hs && _); simpl; [done|]. by apply NoDup_keys_csv_data_line.
Qed.

Lemma gather_keys_distinct (a : args) (e : env) (t : table) :
  gather a e = Some t → table_keys_distinct t.
Proof.
  unfold gather, table_keys_distinct. destruct (given_list (ngram a)) as [files|].
  - pose proof (NoDup_keys_merge_ngram_files e files) as Hg.
    destruct (merge_ngram_files e files); [done|]. by intros [= <-].
  - destruct (download_coca a).
    + destruct (fetched e); [|done]. intros [= <-]. apply NoDup_keys_wordfreq_lines.
    + destruct (given (wordfreq a)).
      * intros [= <-]. unfold get_top_words_from_wordfrequency. simpl.
        destruct (fs e _); [apply NoDup_keys_wordfreq_lines|constructor].
      * destruct (given (csv a)); [|done].
        intros [= <-]. unfold get_top_words_from_csv. simpl.
        destruct (fs e _); [apply NoDup_keys_csv_lines|constructor].
Qed.

Lemma NoDup_keys_sorted_words {F : Type} `{Less F} (n : Z) (d : dict F) :
  good_keys d → List.NoDup (map fst d) → List.NoDup (map fst (sorted_words n d)).
Proof.
  intros Hg Hd. destruct (sorted_words_split n d) as [rest Hs].
  rewrite filtered_good in Hs by done.
  assert (List.NoDup (map fst (sorted_words n d ++ rest)%list)) as Hall.
  { rewrite <- Hs. apply NoDup_ListNoDup.
    rewrite (sorted_perm (fun item : string * entry F => freq (snd item)) true d).
    by apply NoDup_ListNoDup. }
  rewrite map_app in Hall. apply NoDup_ListNoDup, NoDup_app in Hall as [Hk _].
  by apply NoDup_ListNoDup.
Qed.

(** An alphabetic word followed by a newline or a bar is determined by the
    text. *)
Lemma alpha_prefix_unique (w w' : string) (tags tags' : list string) :
  Text.forallb_str Text.isalpha_chr w = true →
  Text.forallb_str Text.isalpha_chr w' = true →
  w ++ tags_suffix tags = w' ++ tags_suffix tags' → w = w'.
Proof.
  assert (∀ (v : string) (l l' : list string) c,
            Text.isalpha_chr c = true → tags_suffix l ≠ String c v ++ tags_suffix l')
    as Hhead.
  { intros v l l' c Hc Heq. destruct l; simpl in Heq; injection Heq as <- _; done. }
  revert w'. induction w as [|c w IH]; intros [|c' w'] Hw Hw' Heq; simpl in *.
  - done.
  - apply andb_prop in Hw' as [Hc _]. by apply Hhead in Heq.
  - apply andb_prop in Hw as [Hc _]. symmetry in Heq. by apply Hhead in Heq.
  - apply andb_prop in Hw as [_ Hw]. apply andb_prop in Hw' as [_ Hw'].
    injection Heq as -> Heq. f_equal. by apply IH.
Qed.

Lemma isalpha_forallb (w : string) :
  Text.isalpha w = true → Text.forallb_str Text.isalpha_chr w = true.
Proof. by destruct w. Qed.

Lemma NoDup_lines {F : Type} (l : dict F) :
  Forall (fun x => Text.isalpha (fst x) = true) l →
  List.NoDup (map fst l) → List.NoDup (map format_line l).
Proof.
  induction l as [|[w data] l IH]; cbn [map fst]; [constructor|].
  intros [Hw Hl]%Forall_cons [Hn Hd]%List.NoDup_cons_iff.
  constructor; [|by apply IH].
  intros ([w' data'] & Heq & Hin)%in_map_iff. apply Hn.
  rewrite !format_line_suffix in Heq. simpl in Hw.
  rewrite Forall_forall in Hl.
  apply alpha_prefix_unique in Heq.
  - subst. apply in_map_iff. by exists (w, data').
  - apply isalpha_forallb. by apply (Hl (w', data')), list_elem_of_In.
  - by apply isalpha_forallb.
Qed.

(** X7: a run never writes a word twice: the ranked words are pairwise
    distinct, and so are the lines written. *)
Theorem no_word_written_twice (a : args) (e : env) (dest : option string)
    (lines : list string) :
  main a e = Wrote dest lines →
  List.NoDup lines
  ∧ ∃ t, gather a e = Some t ∧ lines = table_lines (ranked a t)
         ∧ List.NoDup (table_words (ranked a t)).
Proof.
  intros (t & Hg & _ & _ & ->)%main_wrote.
  pose proof (gather_good _ _ _ Hg) as Hgood.
  pose proof (gather_keys_distinct _ _ _ Hg) as Hnd.
  assert (∀ (F : Type) (L : Less F) (d : dict F),
            good_keys d → List.NoDup (map fst d) →
            List.NoDup (map format_line (sorted_words (top_n a) d))
            ∧ List.NoDup (map fst (sorted_words (top_n a) d))) as Hgen.
  { intros F L d Hd Hk. pose proof (NoDup_keys_sorted_words (top_n a) d Hd Hk) as Hs.
    split; [|done]. apply NoDup_lines; [|done].
    apply Forall_forall. intros x Hx%list_elem_of_In%sorted_words_In%filtered_In.
    tauto. }
  destruct t as [d|d]; destruct (Hgen _ _ d Hgood Hnd) as [Hl Hw];
    (split; [exact Hl|]); eexists; (split; [exact Hg|]); by split.
Qed.

Lemma no_word_written_twice_witness :
  List.NoDup ["the|Adj,Det" ++ NL]
  ∧ ∃ t, gather (Args 5 None None None (Some "lemmas.txt") false)
                (one_file "lemmas.txt"
                   ("rank|lemma|PoS|freq" ++ NL ++ "1|the|def. art.|22038615" ++ NL ++
                    "9|The|a.|7" ++ NL)) = Some t
         ∧ ["the|Adj,Det" ++ NL]
           = table_lines (ranked (Args 5 None None None (Some "lemmas.txt") false) t)
         ∧ List.NoDup
             (table_words (ranked (Args 5 None None None (Some "lemmas.txt") false) t)).
Proof.
  apply (no_word_written_twice
           (Args 5 None None None (Some "lemmas.txt") false)
           (one_file "lemmas.txt"
              ("rank|lemma|PoS|freq" ++ NL ++ "1|the|def. art.|22038615" ++ NL ++
               "9|The|a.|7" ++ NL)) None).
  reflexivity.
Defined.

(** X8: the ranker's filter removes nothing. Every adapter already applies
    it, so the words that survive it are all the words of the aggregate, in
    the same order. *)
Theorem ranker_filter_keeps_everything (a : args) (e : env) (t : table) :
  gather a e = Some t →
  match t with
  | Counts d => filtered d = d
  | Scores d => filtered d = d
  end.
Proof.
  intros Hg%gather_good. destruct t as [d|d]; by apply filtered_good.
Qed.

Lemma ranker_filter_keeps_everything_witness :
  filtered (get_top_words_from_csv
              (one_file "words.csv" ("it's,9" ++ NL ++ "cat,500" ++ NL)) "words.csv")
  = get_top_words_from_csv
      (one_file "words.csv" ("it's,9" ++ NL ++ "cat,500" ++ NL)) "words.csv".
Proof.
  apply (ranker_filter_keeps_everything
           (Args 5 None None (Some "words.csv") None false)
           (one_file "words.csv" ("it's,9" ++ NL ++ "cat,500" ++ NL))
           (Scores _)).
  reflexivity.
Defined.

(** ** The order of the input *)

Lemma total_perm (hits hits' : list (Z * pos_set)) :
  Permutation hits hits' → total hits = total hits'.
Proof.
  intros Hp. unfold total.
  assert (foldr Z.add 0%Z (map fst hits) = foldr Z.add 0%Z (map fst hits')) as Hsum.
  { induction Hp as [|x l l' Hl IH|x y l|l1 l2 l3 H12 IH12 H23 IH23]; simpl;
      [done|by rewrite IH|lia|by etrans]. }
  assert (⋃ (map snd hits) = ⋃ (map snd hits')) as Huni.
  { apply leibniz_equiv. apply union_list_permutation_proper.
    by apply Permutation_map. }
  destruct hits as [|h hits], hits' as [|h' hits'].
  - done.
  - by apply Permutation_nil_cons in Hp.
  - symmetry in Hp. by apply Permutation_nil_cons in Hp.
  - by rewrite Hsum, Huni.
Qed.

(** X9: what the ngram adapter records for a word does not depend on the
    order of the input: permuting the lines of a file, or the files on the
    command line, leaves the total and the tags of every word unchanged. *)
Theorem ngram_totals_order_independent :
  (∀ (lines lines' : list string) (w : string),
     Permutation lines lines' →
     get w (process_ngram_lines lines) = get w (process_ngram_lines lines'))
  ∧ (∀ (e : env) (files files' : list string) (w : string),
       Permutation files files' →
       get w (merge_ngram_files e files) = get w (merge_ngram_files e files')).
Proof.
  split.
  - intros lines lines' w Hp. unfold process_ngram_lines.
    rewrite !get_fold_ngram_step, !bump_value_total.
    apply total_perm. by apply omap_Permutation.
  - intros e files files' w Hp. rewrite !get_merge_ngram_files.
    apply total_perm. by apply omap_Permutation.
Qed.

Lemma ngram_totals_order_independent_witness :
  get "the" (process_ngram_lines
               ["the" ++ String TAB "2000" ++ String TAB "100";
                "the_DET" ++ String TAB "2001" ++ String TAB "50"])
  = get "the" (process_ngram_lines
                 ["the_DET" ++ String TAB "2001" ++ String TAB "50";
                  "the" ++ String TAB "2000" ++ String TAB "100"]).
Proof.
  apply (proj1 ngram_totals_order_independent). apply perm_swap.
Defined.

(** ** The frequency that is kept *)

Lemma fmax_not_nan (a b : Num.float) :
  a ≠ S754_nan → b ≠ S754_nan → fmax a b ≠ S754_nan.
Proof. intros Ha Hb. by destruct (proj1 (fmax_larger a b)) as [-> | ->]. Qed.

Lemma fold_fmax_maximum (fs : list Num.float) (f0 : Num.float) :
  Forall (fun f => f ≠ S754_nan) (f0 :: fs) →
  In (fold_left fmax fs f0) (f0 :: fs)
  ∧ Forall (fun f => SFleb f (fold_left fmax fs f0) = true) (f0 :: fs).
Proof.
  revert f0. induction fs as [|f fs IH]; intros f0 Hn.
  - apply Forall_cons in Hn as [Hn _]. simpl. split; [by left|].
    repeat constructor. by apply FloatOrderFacts.leb_refl.
  - apply Forall_cons in Hn as [Hf0 Hn]. apply Forall_cons in Hn as [Hf Hn].
    assert (fmax f0 f ≠ S754_nan) as Hm by by apply fmax_not_nan.
    destruct (IH (fmax f0 f)) as [Hin Hall]; [by constructor|].
    simpl fold_left. set (m := fold_left fmax fs (fmax f0 f)) in *.
    apply Forall_cons in Hall as [Hmm Hall].
    assert (m ≠ S754_nan) as Hmn.
    { destruct Hin as [<-|Hin]; [done|].
      rewrite Forall_forall in Hn. by apply Hn, list_elem_of_In. }
    destruct (proj2 (fmax_larger f0 f) Hf0 Hf) as [H0 H1].
    split.
    + destruct Hin as [Hin|Hin]; [|right; by right].
      destruct (proj1 (fmax_larger f0 f)) as [E|E]; rewrite E in Hin;
        [by left|right; by left].
    + constructor; [by apply (FloatOrderFacts.leb_trans _ (fmax f0 f))|].
      constructor; [by apply (FloatOrderFacts.leb_trans _ (fmax f0 f))|done].
Qed.

Lemma csv_step_data_lines (lines : list string) (d : dict Num.float) :
  snd (fold_left csv_step lines (false, d))
  = fold_left csv_data_line (csv_data_lines lines) d.
Proof.
  revert d. induction lines as [|line lines IH]; intros d; [done|].
  cbn [fold_left csv_data_lines]. unfold csv_step at 2, csv_header.
  cbn [fst snd negb andb].
  destruct (Text.contains "word" (Text.lower line)
            || Text.contains "freq" (Text.lower line)).
  - by rewrite csv_step_skipped.
  - apply IH.
Qed.

(** X10: in the lemma-frequency and CSV adapters the frequency recorded for
    a word is a true maximum when none of the word's frequencies is a NaN:
    it is the frequency of one of the word's data lines and it is at least
    the frequency of every one of them. The data lines are the lines after
    the first one in a lemma-frequency file, and all the lines but the first
    that holds "word" or "freq" in a CSV file. *)
Theorem recorded_frequency_is_maximum :
  (∀ (first : string) (lines : list string) (w : string) (e : entry Num.float),
     (∀ line f p, In line lines → wordfreq_hit w line = Some (f, p) → f ≠ S754_nan) →
     get w (wordfreq_lines (first :: lines)) = Some e →
     (∃ line p, In line lines ∧ wordfreq_hit w line = Some (freq e, p))
     ∧ (∀ line f p, In line lines → wordfreq_hit w line = Some (f, p) →
                    SFleb f (freq e) = true))
  ∧ (∀ (lines : list string) (w : string) (e : entry Num.float),
       (∀ line f, In line (csv_data_lines lines) → csv_hit w line = Some f →
                  f ≠ S754_nan) →
       get w (csv_lines lines) = Some e →
       (∃ line, In line (csv_data_lines lines) ∧ csv_hit w line = Some (freq e))
       ∧ (∀ line f, In line (csv_data_lines lines) → csv_hit w line = Some f →
                    SFleb f (freq e) = true)).
Proof.
  split.
  - intros first lines w e Hn He. rewrite wordfreq_lines_cons in He.
    rewrite get_fold_wordfreq in He by done.
    assert (∀ f p, In (f, p) (omap (wordfreq_hit w) lines) →
                   ∃ line, In line lines ∧ wordfreq_hit w line = Some (f, p)) as Hback.
    { intros f p (line & Hl & Hh)%list_elem_of_In%list_elem_of_omap.
      exists line. split; [by apply list_elem_of_In|done]. }
    assert (∀ line f p, In line lines → wordfreq_hit w line = Some (f, p) →
                        In f (map fst (omap (wordfreq_hit w) lines))) as Hfwd.
    { intros line f p Hl Hh. apply in_map_iff. exists (f, p). split; [done|].
      apply list_elem_of_In, list_elem_of_omap. exists line.
      split; [by apply list_elem_of_In|done]. }
    destruct (omap (wordfreq_hit w) lines) as [|[f0 p0] rest] eqn:Eh; [done|].
    injection He as <-. simpl freq.
    destruct (fold_fmax_maximum (map fst rest) f0) as [Hin Hall].
    { apply Forall_forall. intros f Hf%list_elem_of_In.
      change (f0 :: map fst rest) with (map fst ((f0, p0) :: rest)) in Hf.
      apply in_map_iff in Hf as ([f' p'] & <- & Hf).
      destruct (Hback _ _ Hf) as (line & Hl & Hh). by apply (Hn line f' p'). }
    split.
    + change (f0 :: map fst rest) with (map fst ((f0, p0) :: rest)) in Hin.
      apply in_map_iff in Hin as ([f' p'] & Heq & Hf). simpl in Heq. subst f'.
      destruct (Hback _ _ Hf) as (line & Hl & Hh). by exists line, p'.
    + intros line f p Hl Hh. rewrite Forall_forall in Hall.
      apply Hall, list_elem_of_In. by apply (Hfwd line f p).
  - intros lines w e Hn He. unfold csv_lines in He.
    rewrite csv_step_data_lines in He.
    rewrite get_fold_csv in He by done.
    revert Hn He. generalize (csv_data_lines lines). clear lines.
    intros lines Hn He.
    assert (∀ f, In f (omap (csv_hit w) lines) ↔
                 ∃ line, In line lines ∧ csv_hit w line = Some f) as Hiff.
    { intros f. rewrite <- list_elem_of_In, list_elem_of_omap.
      split; intros (line & Hl & Hh); exists line; (split; [|done]);
        by apply list_elem_of_In. }
    destruct (omap (csv_hit w) lines) as [|f0 rest] eqn:Eh; [done|].
    injection He as <-. simpl freq.
    destruct (fold_fmax_maximum rest f0) as [Hin Hall].
    { apply Forall_forall. intros f (line & Hl & Hh)%list_elem_of_In%Hiff.
      by apply (Hn line). }
    split.
    + by apply Hiff.
    + intros line f Hl Hh. rewrite Forall_forall in Hall.
      apply Hall, list_elem_of_In, Hiff. by exists line.
Qed.

Lemma recorded_frequency_is_maximum_witness :
  (∃ line, In line (csv_data_lines
                      ["run,7.5" ++ NL; "word,freq" ++ NL; "run,10.0" ++ NL;
                       "run,9" ++ NL])
           ∧ csv_hit "run" line = Some (Num.of_decimal false 10 0))
  ∧ (∀ line f, In line (csv_data_lines
                          ["run,7.5" ++ NL; "word,freq" ++ NL; "run,10.0" ++ NL;
                           "run,9" ++ NL]) →
               csv_hit "run" line = Some f →
               SFleb f (Num.of_decimal false 10 0) = true).
Proof.
  apply (proj2 recorded_frequency_is_maximum
           ["run,7.5" ++ NL; "word,freq" ++ NL; "run,10.0" ++ NL; "run,9" ++ NL]
           "run" (Entry (Num.of_decimal false 10 0) ∅)).
  - intros line f [<-|[<-|[<-|[]]]] Hf; vm_compute in Hf; injection Hf as <-; done.
  - by vm_compute.
Defined.

(** ** Sources that cannot be read *)

Lemma ngram_files_step_missing (e : env) (d : dict Z) (file : string) :
  path_exists e file = false → ngram_files_step e d file = d.
Proof. unfold ngram_files_step. by intros ->. Qed.

Lemma merge_ngram_files_from (e : env) (files : list string) (d : dict Z) :
  fold_left (ngram_files_step e) files d
  = fold_left (ngram_files_step e) (List.filter (path_exists e) files) d.
Proof.
  revert d. induction files as [|file files IH]; intros d; simpl; [done|].
  destruct (path_exists e file) eqn:E; simpl; [apply IH|].
  by rewrite ngram_files_step_missing.
Qed.




Lemma filter_idem {A : Type} (f : A → bool) (l : list A) :
  List.filter f (List.filter f l) = List.filter f l.
Proof.
  induction l as [|x l IH]; simpl; [done|].
  destruct (f x) eqn:E; simpl; [|done]. by rewrite E, IH.
Qed.

Lemma merge_ngram_files_existing (e : env) (files : list string) :
  merge_ngram_files e (List.filter (path_exists e) files) = merge_ngram_files e files.
Proof.
  unfold merge_ngram_files.
  by rewrite (merge_ngram_files_from e (List.filter (path_exists e) files)),
    filter_idem, <- merge_ngram_files_from.
Qed.

(** X12: ngram files that do not exist are skipped. As long as one of the
    files named exists, the run writes what it would write if only the
    existing files had been named. *)
Theorem missing_ngram_files_are_skipped (n : Z) (dest : option string)
    (files : list string) (csv' wordfreq' : option string) (coca : bool) (e : env) :
  List.filter (path_exists e) files ≠ [] →
  main (Args n dest (Some files) csv' wordfreq' coca) e
  = main (Args n dest (Some (List.filter (path_exists e) files)) csv' wordfreq' coca) e.
Proof.
  intros Hne. unfold main, gather. cbn [ngram top_n output].
  pose proof (merge_ngram_files_existing e files) as Hm.
  destruct files as [|f fl]; [done|].
  destruct (List.filter (path_exists e) (f :: fl)) as [|g gl] eqn:Ef; [done|].
  cbn [given_list]. by rewrite Hm.
Qed.

Lemma missing_ngram_files_are_skipped_witness :
  main (Args 10 None (Some ["missing.gz"; "1gram"]) None None false)
       (one_file "1gram" ("the" ++ String TAB "2000" ++ String TAB "100" ++ NL))
  = main (Args 10 None
            (Some (List.filter
                     (path_exists
                        (one_file "1gram"
                           ("the" ++ String TAB "2000" ++ String TAB "100" ++ NL)))
                     ["missing.gz"; "1gram"])) None None false)
         (one_file "1gram" ("the" ++ String TAB "2000" ++ String TAB "100" ++ NL)).
Proof.
  apply (missing_ngram_files_are_skipped 10 None ["missing.gz"; "1gram"]).
  by vm_compute.
Defined.

(** ** What the line parsers return *)

Lemma split_once_no_sep (sep : ascii) (s : string) :
  Text.has_chr sep (fst (Text.split_once sep s)) = false.
Proof.
  induction s as [|c s IH]; simpl; [done|].
  destruct (Ascii.eqb c sep) eqn:E; [done|].
  destruct (Text.split_once sep s) as [a b]. simpl in *. by rewrite E, IH.
Qed.

Lemma nonempty_ne (s : string) : Text.nonempty s = true → s ≠ "".
Proof. by destruct s. Qed.

Lemma parse_with_sep_clean (sep : ascii) (line w : string) (f : Num.float)
    (p : pos_set) :
  parse_with_sep sep line = Some (w, f, p) →
  w ≠ "" ∧ Text.forallb_str (fun c => negb (Text.has_lower c)) w = true
  ∧ Text.has_chr "_" w = false ∧ p ⊆ vocabulary.
Proof.
  intros Hp.
  pose proof (lower_fixed_no_capital _ (parse_with_sep_lower _ _ _ _ _ Hp)) as Hlow.
  unfold parse_with_sep in Hp. destruct (Text.has_chr sep line); [|done].
  destruct (Text.split sep (Text.strip line)) as [|p0 [|p1 [|p2 [|p3 ps]]]]; try done.
  destruct (Num.py_int p0); [|done].
  destruct (Text.has_chr "_" (Text.lower (Text.strip p1))) eqn:Eu.
  - pose proof (split_once_no_sep "_" (Text.lower (Text.strip p1))) as Hno.
    destruct (Text.split_once "_" (Text.lower (Text.strip p1))) as [wp pp].
    destruct (first_float _); [|done].
    destruct (Text.nonempty wp) eqn:En; [|done]. injection Hp as <- _ <-.
    split; [by apply nonempty_ne|]. split; [done|]. split; [done|].
    apply normalize_pos_subset.
  - destruct (first_float _); [|done].
    destruct (Text.nonempty _) eqn:En; [|done]. injection Hp as <- _ <-.
    split; [by apply nonempty_ne|]. split; [done|]. split; [done|].
    apply normalize_pos_subset.
Qed.

(** X13: what the line parsers hand to the adapters. An ngram line gives
    either no word, with count 0 and no tag, or a word without underscore
    none of whose characters has a lowercase form; a lemma-frequency line
    gives either nothing at all or such a word, not empty, together with a
    frequency; the tags always belong to the vocabulary. *)
Theorem parsed_lines_are_clean :
  (∀ line : string,
     match parse_ngram_line line with
     | (Some w, _, p) =>
         Text.forallb_str (fun c => negb (Text.has_lower c)) w = true
         ∧ Text.has_chr "_" w = false ∧ p ⊆ vocabulary
     | (None, c, p) => c = 0%Z ∧ p = ∅
     end)
  ∧ (∀ line : string,
       match parse_wordfrequency_line line with
       | (Some w, Some _, p) =>
           w ≠ ""
           ∧ Text.forallb_str (fun c => negb (Text.has_lower c)) w = true
           ∧ Text.has_chr "_" w = false ∧ p ⊆ vocabulary
       | (None, None, p) => p = ∅
       | _ => False
       end).
Proof.
  split.
  - intros line. pose proof (parse_ngram_line_vocabulary line) as Hv.
    destruct (parse_ngram_line line) as [[[w|] c] p] eqn:E.
    + split; [by apply parse_ngram_line_lower, lower_fixed_no_capital in E|].
      split; [|done].
      unfold parse_ngram_line in E.
      destruct (Text.split TAB (Text.strip line)) as [|p0 [|p1 [|p2 ps]]]; try done.
      destruct (Text.has_chr "_" (Text.lower p0)) eqn:Eu.
      * pose proof (split_once_no_sep "_" (Text.lower p0)) as Hno.
        destruct (Text.split_once "_" (Text.lower p0)) as [wp pp].
        destruct (Num.py_int p2); [|done]. by injection E as <- _ _.
      * destruct (Num.py_int p2); [|done]. by injection E as <- _ _.
    + unfold parse_ngram_line in E.
      destruct (Text.split TAB (Text.strip line)) as [|p0 [|p1 [|p2 ps]]];
        try by injection E as <- <-.
      destruct (Text.has_chr "_" (Text.lower p0)).
      * destruct (Text.split_once "_" (Text.lower p0)) as [wp pp].
        destruct (Num.py_int p2); [done|]. by injection E as <- <-.
      * destruct (Num.py_int p2); [done|]. by injection E as <- <-.
  - intros line. unfold parse_wordfrequency_line.
    generalize [TAB; "|"%char; ","%char]. intros seps.
    induction seps as [|sep seps IH]; simpl; [done|].
    destruct (parse_with_sep sep line) as [[[w f] p]|] eqn:E; [|done].
    by apply parse_with_sep_clean in E.
Qed.

(** ** The POS normaliser reads through case, blanks and dots *)

Lemma lower_chr_isspace (c : ascii) :
  Text.isspace_chr (Text.lower_chr c) = Text.isspace_chr c.
Proof. destruct c as [[] [] [] [] [] [] [] []]; reflexivity. Qed.

Lemma lstrip_lower (s : string) : Text.lstrip (Text.lower s) = Text.lower (Text.lstrip s).
Proof.
  induction s as [|c s IH]; simpl; [done|].
  rewrite lower_chr_isspace. by destruct (Text.isspace_chr c).
Qed.

Lemma rstrip_lower (s : string) : Text.rstrip (Text.lower s) = Text.lower (Text.rstrip s).
Proof.
  induction s as [|c s IH]; simpl; [done|].
  rewrite IH, lower_chr_isspace.
  destruct (Text.rstrip s); simpl; [|done]. by destruct (Text.isspace_chr c).
Qed.

Lemma strip_lower (s : string) : Text.strip (Text.lower s) = Text.lower (Text.strip s).
Proof. unfold Text.strip. by rewrite lstrip_lower, rstrip_lower. Qed.

Lemma rstrip_idem (s : string) : Text.rstrip (Text.rstrip s) = Text.rstrip s.
Proof.
  induction s as [|c s IH]; simpl; [done|].
  destruct (Text.rstrip s) as [|c' r] eqn:E.
  - destruct (Text.isspace_chr c) eqn:Ec; simpl; [done|]. by rewrite Ec.
  - change (Text.rstrip (String c (String c' r)))
      with (match Text.rstrip (String c' r) with
            | EmptyString =>
                if Text.isspace_chr c then EmptyString else String c EmptyString
            | r' => String c r'
            end).
    by rewrite IH.
Qed.

(** Text that does not start with a blank still does not after [rstrip]. *)
Lemma lstrip_rstrip_lstrip (s : string) :
  Text.lstrip (Text.rstrip (Text.lstrip s)) = Text.rstrip (Text.lstrip s).
Proof.
  induction s as [|c s IH]; simpl; [done|].
  destruct (Text.isspace_chr c) eqn:Ec; [done|].
  simpl. destruct (Text.rstrip s); simpl; rewrite ?Ec; simpl; by rewrite ?Ec.
Qed.

Lemma strip_idem (s : string) : Text.strip (Text.strip s) = Text.strip s.
Proof. unfold Text.strip. by rewrite lstrip_rstrip_lstrip, rstrip_idem. Qed.

Lemma lower_nonempty (s : string) : Text.nonempty (Text.lower s) = Text.nonempty s.
Proof. by destruct s. Qed.

(** X14: the POS normaliser is blind to letter case and to surrounding
    blanks: lowercasing the notation, or stripping it, does not change the
    tags it yields. *)
Theorem normalize_pos_ignores_case_and_blanks (s : string) :
  normalize_pos (Text.lower s) = normalize_pos s
  ∧ normalize_pos (Text.strip s) = normalize_pos s.
Proof.
  rewrite !normalize_pos_unfold. split.
  - by rewrite lower_nonempty, strip_lower, lower_idem.
  - rewrite strip_idem. destruct s as [|c s]; [done|].
    destruct (Text.strip (String c s)) eqn:E; [by vm_compute|done].
Qed.

(** A run of literal characters hands its continuation the last of them. *)
Lemma matches_text_ext (w : string) (prev : option ascii) (s : string)
    (k k' : option ascii → string → bool) :
  w ≠ "" →
  (∀ t, k (last_chr w) t = k' (last_chr w) t) →
  Re.matches (Re.text w) prev s k = Re.matches (Re.text w) prev s k'.
Proof.
  revert prev s. induction w as [|c w IH]; intros prev s Hne Hk; [done|].
  destruct w as [|c' w].
  - simpl in *. destruct s as [|a s]; [done|].
    destruct (Ascii.eqb a c) eqn:E; [|done]. simpl.
    apply Ascii.eqb_eq in E as ->. apply Hk.
  - change (Re.text (String c (String c' w)))
      with (Re.Cat (Re.Lit c) (Re.text (String c' w))).
    cbn [Re.matches]. destruct s as [|a s]; [done|].
    destruct (Ascii.eqb a c); [|done]. simpl andb.
    apply (IH (Some a) s); [done|]. intros t. apply Hk.
Qed.

(** X15: the optional dot of the abbreviation patterns never decides a
    match. For an abbreviation that ends in a word character,
    [\babbr\.?\b] is found in a text exactly when [\babbr\b] is: a dot after
    the abbreviation is itself a word boundary. *)
Theorem abbreviation_dot_is_redundant (w s : string) (c : ascii) :
  last_chr w = Some c → Text.isword_chr c = true →
  Re.search (Re.abbrev w) s = Re.search (whole_word w) s.
Proof.
  intros Hlast Hc.
  assert (w ≠ "") as Hne by (intros ->; done).
  unfold Re.search. generalize (@None ascii).
  induction s as [|a s IH]; intros prev.
  - unfold Re.search_from, Re.abbrev, whole_word. cbn [Re.matches]. f_equal. f_equal.
    apply matches_text_ext; [done|]. intros t. rewrite Hlast.
    unfold Re.at_boundary. rewrite Hc.
    destruct t as [|b t]; [done|].
    destruct (Ascii.eqb b ".") eqn:Eb; [|done].
    apply Ascii.eqb_eq in Eb as ->. cbn. by rewrite orb_true_r.
  - change (Re.search_from (Re.abbrev w) prev (String a s))
      with (Re.matches (Re.abbrev w) prev (String a s) (fun _ _ => true)
            || Re.search_from (Re.abbrev w) (Some a) s).
    change (Re.search_from (whole_word w) prev (String a s))
      with (Re.matches (whole_word w) prev (String a s) (fun _ _ => true)
            || Re.search_from (whole_word w) (Some a) s).
    rewrite IH. f_equal.
    unfold Re.abbrev, whole_word. cbn [Re.matches]. f_equal.
    apply matches_text_ext; [done|]. intros t. rewrite Hlast.
    unfold Re.at_boundary. rewrite Hc.
    destruct t as [|b t]; [done|].
    destruct (Ascii.eqb b ".") eqn:Eb; [|done].
    apply Ascii.eqb_eq in Eb as ->. cbn. by rewrite orb_true_r.
Qed.

Lemma abbreviation_dot_is_redundant_witness :
  Re.search (Re.abbrev "adj") "adj., adv." = Re.search (whole_word "adj") "adj., adv.".
Proof.
  apply (abbreviation_dot_is_redundant "adj" "adj., adv." "j"); reflexivity.
Defined.

(** ** One line, one word, in order of appearance *)

Lemma keys_set_seen {V : Type} (k : string) (v : V) (d : list (string * V)) :
  map fst (set k v d)
  = if bool_decide (k ∈ map fst d) then map fst d else (map fst d ++ [k])%list.
Proof.
  rewrite keys_set. destruct (get k d) as [v'|] eqn:E.
  - rewrite bool_decide_eq_true_2; [done|].
    apply get_Some_In in E. apply list_elem_of_In, in_map_iff. by exists (k, v').
  - rewrite bool_decide_eq_false_2; [done|].
    rewrite list_elem_of_In. by apply get_None_keys.
Qed.

Lemma keys_ngram_step (d : dict Z) (line : string) :
  map fst (ngram_step d line) = first_seen (map fst d) (option_list (ngram_key line)).
Proof.
  rewrite ngram_step_bump. unfold ngram_key.
  destruct (parse_ngram_line line) as [[[w|] c] p]; [|done].
  destruct (keep_word w); [|done].
  unfold bump. rewrite modify_setdefault. apply keys_set_seen.
Qed.

Lemma keys_wordfreq_data_line (d : dict Num.float) (line : string) :
  map fst (wordfreq_data_line d line)
  = first_seen (map fst d) (option_list (wordfreq_key line)).
Proof.
  unfold wordfreq_data_line, wordfreq_key.
  destruct (parse_wordfrequency_line line) as [[[w|] [f|]] p]; try done.
  destruct (keep_word w); [|done].
  destruct (get w d) eqn:E; apply keys_set_seen.
Qed.

Lemma keys_csv_data_line (d : dict Num.float) (line : string) :
  map fst (csv_data_line d line) = first_seen (map fst d) (option_list (csv_key line)).
Proof.
  unfold csv_data_line, csv_key.
  destruct (Text.split "," (Text.strip line)) as [|p0 [|p1 ps]]; try done.
  destruct (Num.py_float (Text.strip p1)); [|done]. simpl.
  destruct (keep_word _); [|done].
  destruct (get _ d) as [e|] eqn:E; [|apply keys_set_seen].
  destruct (fgt _ _); [apply keys_set_seen|].
  simpl. rewrite bool_decide_eq_true_2; [done|].
  apply get_Some_In in E. apply list_elem_of_In, in_map_iff. by eexists (_, e).
Qed.

Lemma keys_fold {F : Type} (step : dict F → string → dict F) (key : string → option string)
    (lines : list string) (d : dict F) :
  (∀ d line, map fst (step d line) = first_seen (map fst d) (option_list (key line))) →
  map fst (fold_left step lines d) = first_seen (map fst d) (omap key lines).
Proof.
  intros Hstep. revert d. induction lines as [|line lines IH]; intros d; [done|].
  cbn [fold_left]. rewrite IH, Hstep.
  change (omap key (line :: lines))
    with (match key line with
          | Some w => w :: omap key lines
          | None => omap key lines
          end).
  by destruct (key line).
Qed.

(** X16: the aggregate lists its words in the order in which the input first
    mentions them. For each adapter the words of the result are the words of
    the recorded data lines, each at its first occurrence. Together with the
    stable sort this fixes the order of the lines with equal frequency. *)
Theorem words_in_order_of_first_appearance :
  (∀ lines : list string,
     map fst (process_ngram_lines lines) = first_seen [] (omap ngram_key lines))
  ∧ (∀ (first : string) (lines : list string),
       map fst (wordfreq_lines (first :: lines))
       = first_seen [] (omap wordfreq_key lines))
  ∧ (∀ lines : list string,
       Forall (fun l => csv_header l = false) lines →
       map fst (csv_lines lines) = first_seen [] (omap csv_key lines)).
Proof.
  split; [|split].
  - intros lines. apply (keys_fold ngram_step ngram_key lines []), keys_ngram_step.
  - intros first lines. rewrite wordfreq_lines_cons.
    apply (keys_fold wordfreq_data_line wordfreq_key lines []), keys_wordfreq_data_line.
  - intros lines Hl. unfold csv_lines. rewrite csv_step_no_header by done.
    apply (keys_fold csv_data_line csv_key lines []), keys_csv_data_line.
Qed.

Lemma words_in_order_of_first_appearance_witness :
  map fst (csv_lines ["dog,1" ++ NL; "cat,5" ++ NL; "Dog,9" ++ NL])
  = first_seen [] (omap csv_key ["dog,1" ++ NL; "cat,5" ++ NL; "Dog,9" ++ NL]).
Proof.
  apply (proj2 (proj2 words_in_order_of_first_appearance)).
  repeat constructor.
Defined.

(** X17: a line changes the entry of one word at most. A line that
    contributes nothing to a word leaves that word's entry, or its absence,
    as it was, in each of the three adapters; and no line contributes to two
    different words. *)
Theorem line_touches_one_word :
  (∀ (d : dict Z) (line w : string),
     ngram_hit w line = None → get w (ngram_step d line) = get w d)
  ∧ (∀ (d : dict Num.float) (line w : string),
       wordfreq_hit w line = None → get w (wordfreq_data_line d line) = get w d)
  ∧ (∀ (d : dict Num.float) (line w : string),
       csv_hit w line = None → get w (csv_data_line d line) = get w d)
  ∧ (∀ line w w' : string,
       (is_Some (ngram_hit w line) → is_Some (ngram_hit w' line) → w = w')
       ∧ (is_Some (wordfreq_hit w line) → is_Some (wordfreq_hit w' line) → w = w')
       ∧ (is_Some (csv_hit w line) → is_Some (csv_hit w' line) → w = w')).
Proof.
  split; [|split; [|split]].
  - intros d line w Hh. by rewrite get_ngram_step, Hh.
  - intros d line w Hh. by rewrite get_wordfreq_data_line, Hh.
  - intros d line w Hh. by rewrite get_csv_data_line, Hh.
  - intros line w w'. split; [|split].
    + unfold ngram_hit. destruct (parse_ngram_line line) as [[[w0|] c] p];
        [|by intros [? ?]].
      destruct (keep_word w0); simpl; [|by intros [? ?]].
      destruct (String.eqb w0 w) eqn:E; [|by intros [? ?]].
      destruct (String.eqb w0 w') eqn:E'; [|by intros _ [? ?]].
      apply String.eqb_eq in E, E'. congruence.
    + unfold wordfreq_hit.
      destruct (parse_wordfrequency_line line) as [[[w0|] [f|]] p];
        try by intros [? ?].
      destruct (keep_word w0); simpl; [|by intros [? ?]].
      destruct (String.eqb w0 w) eqn:E; [|by intros [? ?]].
      destruct (String.eqb w0 w') eqn:E'; [|by intros _ [? ?]].
      apply String.eqb_eq in E, E'. congruence.
    + unfold csv_hit.
      destruct (Text.split "," (Text.strip line)) as [|p0 [|p1 ps]];
        try by intros [? ?].
      destruct (Num.py_float (Text.strip p1)); [|by intros [? ?]]. simpl.
      destruct (keep_word _); simpl; [|by intros [? ?]].
      destruct (String.eqb _ w) eqn:E; [|by intros [? ?]].
      destruct (String.eqb _ w') eqn:E'; [|by intros _ [? ?]].
      apply String.eqb_eq in E, E'. congruence.
Qed.

Lemma line_touches_one_word_witness :
  get "cat" (csv_data_line [("cat", Entry (Num.of_decimal false 5 0) ∅)] "dog,9")
  = get "cat" [("cat", Entry (Num.of_decimal false 5 0) ∅)].
Proof.
  apply (proj1 (proj2 (proj2 line_touches_one_word))). reflexivity.
Defined.
